(** * tools-archetype: the check runner and the scoped file store

    A shallow embedding of the Go sources

      - [pkg/monitoring/monitor.go]  (probes and the file store),
      - the monitoring HTTP handler  ([run], [DataDelete], ...),
      - [main.go]                    (the stand-alone server with the same
                                      helpers written inline),

    together with the parts of the Go standard library they call
    ([path/filepath], [strings], [strconv], [time], [os], [net/http]),
    modelled for a Unix target (the image the repository builds is
    Alpine Linux: the only path separator is the slash and there are no
    volume names). *)

From Stdlib Require Import ZArith String Ascii List Lia.
From stdpp Require Import gmap strings list fin_maps.

Open Scope string_scope.
Open Scope Z_scope.

(** ** Go strings

    A Go [string] is a sequence of bytes; so is a Rocq [string]. *)

Module strings.

(** [strings.HasPrefix(s, prefix)] *)
Definition HasPrefix (s pre : string) : bool := String.prefix pre s.

(** [strings.Contains(s, substr)]: [substr] occurs somewhere in [s]. *)
Fixpoint Contains (s substr : string) : bool :=
  HasPrefix s substr ||
  match s with
  | EmptyString => false
  | String _ rest => Contains rest substr
  end.

(** The one-byte white space of [unicode.IsSpace]:
    tab, line feed, vertical tab, form feed, carriage return, space. *)
Definition isSpace (c : ascii) : bool :=
  let n := nat_of_ascii c in
  ((9 <=? n)%nat && (n <=? 13)%nat) || (n =? 32)%nat.

(** Whether the bytes [s] are the UTF-8 encoding of one rune of
    [unicode.IsSpace]: a one-byte space, U+0085 and U+00A0 (C2 85,
    C2 A0), U+1680 (E1 9A 80), U+2000 to U+200A, U+2028, U+2029 and
    U+202F (E2 80 80 to E2 80 8A, E2 80 A8, E2 80 A9, E2 80 AF), U+205F
    (E2 81 9F) and U+3000 (E3 80 80). No encoding is the start or the end
    of another, and a byte that is not part of a valid encoding decodes
    to [utf8.RuneError], which is no space. *)
Definition is_space_rune (s : string) : bool :=
  match s with
  | String c EmptyString => isSpace c
  | String c (String d EmptyString) =>
      let c := nat_of_ascii c in
      let d := nat_of_ascii d in
      (c =? 194)%nat && ((d =? 133)%nat || (d =? 160)%nat)
  | String c (String d (String e EmptyString)) =>
      let c := nat_of_ascii c in
      let d := nat_of_ascii d in
      let e := nat_of_ascii e in
      ((c =? 225)%nat && (d =? 154)%nat && (e =? 128)%nat)
      || ((c =? 226)%nat && (d =? 128)%nat
          && (((128 <=? e)%nat && (e <=? 138)%nat)
              || (e =? 168)%nat || (e =? 169)%nat || (e =? 175)%nat))
      || ((c =? 226)%nat && (d =? 129)%nat && (e =? 159)%nat)
      || ((c =? 227)%nat && (d =? 128)%nat && (e =? 128)%nat)
  | _ => false
  end.

(** [strings.TrimLeftFunc(s, unicode.IsSpace)]: without the space runes
    at its start. *)
Fixpoint TrimLeft (s : string) : string :=
  match s with
  | EmptyString => EmptyString
  | String c s1 =>
      if is_space_rune (String c EmptyString) then TrimLeft s1
      else
        match s1 with
        | EmptyString => s
        | String d s2 =>
            if is_space_rune (String c (String d EmptyString)) then TrimLeft s2
            else
              match s2 with
              | EmptyString => s
              | String e s3 =>
                  if is_space_rune (String c (String d (String e EmptyString)))
                  then TrimLeft s3
                  else s
              end
        end
  end.

(** Whether [s] starts with a space rune. *)
Definition starts_with_space (s : string) : bool :=
  match s with
  | EmptyString => false
  | String c s1 =>
      is_space_rune (String c EmptyString)
      || match s1 with
         | EmptyString => false
         | String d s2 =>
             is_space_rune (String c (String d EmptyString))
             || match s2 with
                | EmptyString => false
                | String e _ =>
                    is_space_rune (String c (String d (String e EmptyString)))
                end
         end
  end.

(** [strings.TrimRightFunc(s, unicode.IsSpace)]: without the space runes
    at its end. What is left of [String c rest] is [c] before what is
    left of [rest], unless that is itself one space rune. *)
Fixpoint TrimRight (s : string) : string :=
  match s with
  | EmptyString => EmptyString
  | String c rest =>
      let rest' := TrimRight rest in
      if is_space_rune (String c rest') then EmptyString
      else String c rest'
  end.

(** [strings.TrimSpace(s)]: leading and trailing white space removed,
    as defined by Unicode ([strings.TrimFunc(s, unicode.IsSpace)], of
    which Go's loops over the ASCII bytes are the fast path). *)
Definition TrimSpace (s : string) : string := TrimRight (TrimLeft s).

(** [strings.Join(elems, sep)] *)
Fixpoint Join (elems : list string) (sep : string) : string :=
  match elems with
  | [] => ""
  | [e] => e
  | e :: rest => e ++ sep ++ Join rest sep
  end.

End strings.

(** ** [path/filepath] on Unix *)

Module filepath.

Definition Separator : ascii := "/"%char.

(** [os.IsPathSeparator(c)] *)
Definition IsPathSeparator (c : ascii) : bool := Ascii.eqb c Separator.

(** Whether some byte of [s] is a separator. *)
Fixpoint has_separator (s : string) : bool :=
  match s with
  | EmptyString => false
  | String c rest => IsPathSeparator c || has_separator rest
  end.

(** First loop of [Base]:
    [for len(path) > 0 && os.IsPathSeparator(path[len(path)-1])
       { path = path[0 : len(path)-1] }]. *)
Fixpoint strip_trailing_separators (path : string) : string :=
  match path with
  | EmptyString => EmptyString
  | String c rest =>
      match strip_trailing_separators rest with
      | EmptyString =>
          if IsPathSeparator c then EmptyString else String c EmptyString
      | rest' => String c rest'
      end
  end.

(** Second loop of [Base]: [i] runs down from the end to the last
    separator and the path becomes [path[i+1:]] (the whole path when
    there is no separator). *)
Fixpoint after_last_separator (path : string) : string :=
  match path with
  | EmptyString => EmptyString
  | String c rest =>
      if has_separator rest then after_last_separator rest
      else if IsPathSeparator c then rest
      else path
  end.

(** [filepath.Base(path)]: the last element of [path]; ["."] for the
    empty path and ["/"] for a path of separators only. *)
Definition Base (path : string) : string :=
  if String.eqb path "" then "."
  else
    let path := after_last_separator (strip_trailing_separators path) in
    if String.eqb path "" then String Separator EmptyString
    else path.

(** The elements of a path: the pieces between separators. *)
Fixpoint split (path : string) : list string :=
  match path with
  | EmptyString => [EmptyString]
  | String c rest =>
      if IsPathSeparator c then EmptyString :: split rest
      else match split rest with
           | [] => [String c EmptyString]
           | e :: es => String c e :: es
           end
  end.

(** One round of the loop of [Clean], on one path element; [out] is the
    output buffer as a stack of elements, last one first. The empty
    element and ["."] are skipped; [".."] removes the last element when
    there is one to remove ([out.w > dotdot]), is kept on a path that is
    not rooted, and is dropped at the root; any other element is
    appended. *)
Definition clean_step (rooted : bool) (out : list string) (elem : string)
  : list string :=
  if String.eqb elem "" || String.eqb elem "." then out
  else if String.eqb elem ".." then
    match out with
    | top :: below =>
        if String.eqb top ".." then (if rooted then out else elem :: out)
        else below
    | [] => if rooted then [] else [elem]
    end
  else elem :: out.

(** [filepath.Clean(path)] *)
Definition Clean (path : string) : string :=
  match path with
  | EmptyString => "."
  | String c _ =>
      let rooted := IsPathSeparator c in
      let out := rev (fold_left (clean_step rooted) (split path) []) in
      if rooted then "/" ++ strings.Join out "/"
      else match out with
           | [] => "."
           | _ => strings.Join out "/"
           end
  end.

(** [filepath.Join(dir, name)]: empty elements are ignored, the rest is
    joined with the separator and cleaned. *)
Definition Join (dir name : string) : string :=
  if negb (String.eqb dir "") then Clean (dir ++ "/" ++ name)
  else if negb (String.eqb name "") then Clean name
  else "".

End filepath.

(** ** The filename guard *)

(** [SafeFilename] of [pkg/monitoring/monitor.go]. *)
Definition SafeFilename (name : string) : bool :=
  if String.eqb name "" || String.eqb name "." || String.eqb name ".." then false
  else String.eqb (filepath.Base name) name.

(** [safeFilename] of [main.go]: the same test, written with an early
    return for each rejection. *)
Definition safeFilename (name : string) : bool :=
  if String.eqb name "" || String.eqb name "." || String.eqb name ".." then false
  else if negb (String.eqb (filepath.Base name) name) then false
  else true.

(** ** Errors

    Go's [error] values, as far as the code builds or inspects them. A
    nil error is [None : option error]. *)

Inductive errno : Type :=
| ENOENT      (* no such file or directory *)
| EISDIR      (* is a directory *)
| EROFS       (* read-only file system *)
| ENOTEMPTY.  (* directory not empty *)

Definition errno_Error (e : errno) : string :=
  match e with
  | ENOENT => "no such file or directory"
  | EISDIR => "is a directory"
  | EROFS => "read-only file system"
  | ENOTEMPTY => "directory not empty"
  end.

Inductive error : Type :=
| errorString (msg : string)                  (* errors.New, fmt.Errorf *)
| PathError (op path : string) (err : errno). (* *fs.PathError from os *)

(** [err.Error()] *)
Definition Error (err : error) : string :=
  match err with
  | errorString msg => msg
  | PathError op path e => op ++ " " ++ path ++ ": " ++ errno_Error e
  end.

(** [errors.Is(err, os.ErrNotExist)] *)
Definition IsNotExist (err : error) : bool :=
  match err with
  | PathError _ _ ENOENT => true
  | _ => false
  end.

(** [var ErrProtectedFile = errors.New(...)] of monitor.go. *)
Definition ErrProtectedFile : error :=
  errorString "file is protected and cannot be deleted".

(** [errString] (monitor.go and main.go). *)
Definition errString (err : option error) : string :=
  match err with
  | None => ""
  | Some e => Error e
  end.

(** A value or an error: the [(T, error)] results of the standard library,
    where the code looks at the value only when the error is nil. *)
Inductive res (A : Type) : Type :=
| Ok (a : A)
| Err (err : error).
Arguments Ok {A} a.
Arguments Err {A} err.

(** ** Dynamic values: [any], [Detail], [gin.H] *)

(** What the code stores under [any]: strings, integers, booleans, and
    maps from strings to such values ([map[string]any], which is what
    [Detail], [CheckDetail] and [gin.H] are). [ANil] is the nil map. *)
#[warnings="-register-all"]
Inductive any : Type :=
| AString (s : string)
| AInt (n : Z)
| ABool (b : bool)
| ANil
| AMap (m : gmap string any).

(** [type Detail map[string]any]; [None] is the nil [Detail]. *)
Definition Detail : Type := option (gmap string any).

(** A [Detail] stored as an [any] (as the value of a [gin.H] entry). *)
Definition any_of_Detail (d : Detail) : any :=
  match d with
  | None => ANil
  | Some m => AMap m
  end.

(** [len(s)] as an [int]. *)
Definition len (s : string) : Z := Z.of_nat (String.length s).

(** ** [strconv.Quote], the [%q] verb of [fmt.Sprintf]

    A double-quoted Go string literal: the quote and the backslash are
    escaped, the control bytes are written as escapes, every other byte
    is copied. (Go decodes bytes above 0x7f as UTF-8 and escapes what is
    invalid or not printable; the model copies those bytes, so it agrees
    with Go on ASCII strings and on printable UTF-8.) *)

Module strconv.

(** The byte 0x22. *)
Definition double_quote : ascii := "034"%char.

Definition hex_digit (n : nat) : ascii :=
  match String.get n "0123456789abcdef" with
  | Some c => c
  | None => "0"%char
  end.

Definition quote_byte (c : ascii) : string :=
  let n := nat_of_ascii c in
  if Ascii.eqb c double_quote then String "\"%char (String c EmptyString)
  else if Ascii.eqb c "\"%char then String c (String c EmptyString)
  else if (n =? 7)%nat then "\a"
  else if (n =? 8)%nat then "\b"
  else if (n =? 12)%nat then "\f"
  else if (n =? 10)%nat then "\n"
  else if (n =? 13)%nat then "\r"
  else if (n =? 9)%nat then "\t"
  else if (n =? 11)%nat then "\v"
  else if (n <? 32)%nat || (n =? 127)%nat then
    String "\"%char (String "x"%char
      (String (hex_digit (n / 16)) (String (hex_digit (n mod 16)) EmptyString)))
  else String c EmptyString.

Fixpoint quote_bytes (s : string) : string :=
  match s with
  | EmptyString => EmptyString
  | String c rest => quote_byte c ++ quote_bytes rest
  end.

Definition Quote (s : string) : string :=
  String double_quote (quote_bytes s ++ String double_quote EmptyString).

End strconv.

(** ** [net/url]: what [url.Parse] refuses at first sight

    [Parse] cuts the fragment off, refuses control bytes, looks for a
    scheme ([getScheme]) and, without one, refuses a relative path whose
    first segment has a colon in it. These refusals are modelled as Go
    has them; the later ones (a malformed authority or percent escape)
    are not, and a string that passes here counts as parsed. *)

Module url.

(** The part of [s] before the first byte [sep], all of [s] without one
    (the first result of [strings.Cut]). *)
Fixpoint before (sep : ascii) (s : string) : string :=
  match s with
  | EmptyString => EmptyString
  | String c rest =>
      if Ascii.eqb c sep then EmptyString else String c (before sep rest)
  end.

(** [stringContainsCTLByte(s)]: a byte below 0x20, or 0x7f. *)
Fixpoint stringContainsCTLByte (s : string) : bool :=
  match s with
  | EmptyString => false
  | String c rest =>
      let b := nat_of_ascii c in
      (b <? 32)%nat || (b =? 127)%nat || stringContainsCTLByte rest
  end.

Inductive scheme : Type :=
| no_scheme          (* ("", rawURL, nil) *)
| with_scheme        (* (rawURL[:i], rawURL[i+1:], nil) with i > 0 *)
| missing_scheme.    (* errors.New("missing protocol scheme") *)

Definition is_letter (c : ascii) : bool :=
  let b := nat_of_ascii c in
  ((97 <=? b)%nat && (b <=? 122)%nat) || ((65 <=? b)%nat && (b <=? 90)%nat).

(** A digit, ['+'], ['-'] or ['.']. *)
Definition is_scheme_other (c : ascii) : bool :=
  let b := nat_of_ascii c in
  ((48 <=? b)%nat && (b <=? 57)%nat) || (b =? 43)%nat || (b =? 45)%nat
  || (b =? 46)%nat.

(** The loop of [getScheme]; [first] says that [i == 0]. *)
Fixpoint getScheme_loop (first : bool) (s : string) : scheme :=
  match s with
  | EmptyString => no_scheme
  | String c rest =>
      if is_letter c then getScheme_loop false rest
      else if is_scheme_other c then
        (if first then no_scheme else getScheme_loop false rest)
      else if Ascii.eqb c ":"%char then
        (if first then missing_scheme else with_scheme)
      else no_scheme
  end.

Definition getScheme (rawURL : string) : scheme := getScheme_loop true rawURL.

(** The cause [parse(u, false)] fails with, as far as modelled. *)
Definition parse_error (u : string) : option string :=
  if stringContainsCTLByte u then
    Some "net/url: invalid control character in URL"
  else if String.eqb u "*" then None
  else
    match getScheme u with
    | missing_scheme => Some "missing protocol scheme"
    | with_scheme => None
    | no_scheme =>
        let rest := before "?"%char u in
        if strings.HasPrefix rest "/" then None
        else if strings.Contains (before "/"%char rest) ":" then
          Some "first path segment in URL cannot contain colon"
        else None
    end.

(** The error of [url.Parse(rawURL)], a [*url.Error] with the operation
    "parse", the string and the cause; [None] when the string parses. *)
Definition Parse (rawURL : string) : option error :=
  let u := before "#"%char rawURL in
  match parse_error u with
  | Some cause =>
      Some (errorString ("parse " ++ strconv.Quote u ++ ": " ++ cause))
  | None => None
  end.

(** [ishex(c)] and [unhex(c)] *)
Definition ishex (c : ascii) : bool :=
  let b := nat_of_ascii c in
  ((48 <=? b)%nat && (b <=? 57)%nat) || ((97 <=? b)%nat && (b <=? 102)%nat)
  || ((65 <=? b)%nat && (b <=? 70)%nat).

Definition unhex (c : ascii) : nat :=
  let b := nat_of_ascii c in
  if (48 <=? b)%nat && (b <=? 57)%nat then b - 48
  else if (97 <=? b)%nat && (b <=? 102)%nat then b - 97 + 10
  else if (65 <=? b)%nat && (b <=? 70)%nat then b - 65 + 10
  else 0.

(** [url.QueryUnescape(s)], which decodes the keys and the values of a
    query string: a percent sign and two hex digits are one byte, a plus
    sign is a space, every other byte is itself. [None] is the
    [EscapeError] for a percent sign without its two hex digits. *)
Fixpoint QueryUnescape (s : string) : option string :=
  match s with
  | EmptyString => Some EmptyString
  | String c rest =>
      if Ascii.eqb c "%"%char then
        match rest with
        | String h (String l rest') =>
            if ishex h && ishex l then
              t ← QueryUnescape rest';
              Some (String (ascii_of_nat (unhex h * 16 + unhex l)) t)
            else None
        | _ => None
        end
      else if Ascii.eqb c "+"%char then
        t ← QueryUnescape rest; Some (String " "%char t)
      else
        t ← QueryUnescape rest; Some (String c t)
  end.

End url.

(** ** Time

    A [time.Time] as the code observes it: the reading of the monotonic
    clock (nanoseconds), which [time.Since] subtracts, and the rendering
    of the wall clock by [t.UTC().Format(time.RFC3339Nano)], from which
    the self-test builds its file name. *)

Record Time : Type := mkTime {
  monotonic : Z;
  UTC_RFC3339Nano : string
}.

Definition maxDuration : Z := 2 ^ 63 - 1.
Definition minDuration : Z := - 2 ^ 63.

(** [t.Sub(u)]: a [time.Duration] (an [int64] of nanoseconds), saturated
    at the largest and smallest duration. *)
Definition Time_Sub (t u : Time) : Z :=
  let d := monotonic t - monotonic u in
  if maxDuration <? d then maxDuration
  else if d <? minDuration then minDuration
  else d.

(** [d.Milliseconds()]: [int64(d) / 1e6], rounded toward zero. *)
Definition Milliseconds (d : Z) : Z := Z.quot d 1000000.

(** [n * time.Millisecond] *)
Definition Millisecond : Z := 1000000.

(** ** Contexts

    A [context.Context] as a value: the request's own context or a child
    of one with a timeout. The deadline is the environment's business;
    the code only builds contexts and hands them on. *)

Inductive context : Type :=
| ctx_Background
| ctx_WithTimeout (parent : context) (timeout : Z).

(** ** HTTP requests *)

Record Request : Type := mkRequest {
  req_ctx : context;
  req_method : string;
  req_url : string
}.

(** An open [*os.File]: the path it was opened at. *)
Record File : Type := mkFile { file_path : string }.

(** ** Calls into the environment

    Every call that leaves the program: the clock, the file system, the
    URL parser and the HTTP client. *)

Inductive call : Type :=
| time_Now
| os_WriteFile (path data : string)      (* os.WriteFile(path, data, 0o644) *)
| os_ReadFile (path : string)
| os_Open (path : string)
| io_ReadAll (f : File)
| File_Close (f : File)
| os_Remove (path : string)
| url_Parse (rawURL : string)            (* url.Parse(rawURL): its error *)
| http_Client_Do (req : Request).        (* the status code, or an error *)

Definition reply (c : call) : Type :=
  match c with
  | time_Now => Time
  | os_WriteFile _ _ => option error
  | os_ReadFile _ => res string
  | os_Open _ => res File
  | io_ReadAll _ => res string
  | File_Close _ => option error
  | os_Remove _ => option error
  | url_Parse _ => option error
  | http_Client_Do _ => res Z
  end.

(** ** Programs

    A Go function body as a tree: it returns, it panics, or it makes a
    call and goes on with the reply. *)

Inductive prog (A : Type) : Type :=
| Ret (a : A)
| Panic (msg : string)
| Call (c : call) (k : reply c → prog A).
Arguments Ret {A} a.
Arguments Panic {A} msg.
Arguments Call {A} c k.

Fixpoint bind {A B : Type} (p : prog A) (f : A → prog B) : prog B :=
  match p with
  | Ret a => f a
  | Panic msg => Panic msg
  | Call c k => Call c (λ r, bind (k r) f)
  end.

#[global] Instance prog_ret : MRet prog := @Ret.
#[global] Instance prog_bind : MBind prog := λ A B f p, bind p f.

(** One call, returning its reply. *)
Definition do (c : call) : prog (reply c) := Call c Ret.

(** ** The environment

    The state the calls act on, one request at a time (the store takes
    no lock, and what concurrent requests do to one file is outside this
    model). The file system is a map from cleaned paths to nodes, on a
    volume that may be mounted read-only. The clock is monotonic: a call
    takes a duration that is not negative, and [w_format] renders a
    reading as the wall clock in RFC 3339. [w_url_Parse] is the URL
    parser and [w_net] the network, which answers a GET by its URL with a
    status code or an error. [w_trace] records every call made, the
    oldest first. *)

Inductive node : Type :=
| RegularFile (data : string)
| Directory.

Record world : Type := mkWorld {
  w_files : gmap string node;
  w_readonly : bool;
  w_clock : Z;
  w_duration : call → N;
  w_format : Z → string;
  w_url_Parse : string → option error;
  w_net : string → res Z;
  w_trace : list call
}.

Definition with_files (files : gmap string node) (w : world) : world :=
  mkWorld files (w_readonly w) (w_clock w) (w_duration w) (w_format w)
          (w_url_Parse w) (w_net w) (w_trace w).

(** The call is recorded and the clock moves on by its duration. *)
Definition tick (c : call) (w : world) : world :=
  mkWorld (w_files w) (w_readonly w) (w_clock w + Z.of_N (w_duration w c))
          (w_duration w) (w_format w) (w_url_Parse w) (w_net w)
          (w_trace w ++ [c]).

(** Whether some path of the file system lies beneath [dir]. *)
Definition has_entries (dir : string) (files : gmap string node) : bool :=
  bool_decide (map_Exists (λ path _, String.prefix (dir ++ "/") path = true) files).

(** What a call does and answers. The file calls fail for four causes:
    a volume mounted read-only (EROFS), a directory where a file is
    meant (EISDIR), a path that is not there (ENOENT) and a directory
    that is not empty (ENOTEMPTY). What else a kernel may refuse (a name
    with a NUL byte or longer than the file system takes, a missing
    parent directory, permissions, a full disk) has no place in this
    environment: a property that names an error is about these four
    causes, and the others are covered by the properties that take the
    reply of the call as it comes. *)
Definition handle (c : call) (w : world) : reply c * world :=
  let w' := tick c w in
  match c return reply c * world with
  | time_Now => (mkTime (w_clock w) (w_format w (w_clock w)), w')
  | os_WriteFile path data =>
      if w_readonly w then (Some (PathError "open" path EROFS), w')
      else match w_files w !! path with
           | Some Directory => (Some (PathError "open" path EISDIR), w')
           | _ => (None, with_files (<[path := RegularFile data]> (w_files w)) w')
           end
  | os_ReadFile path =>
      match w_files w !! path with
      | None => (Err (PathError "open" path ENOENT), w')
      | Some Directory => (Err (PathError "read" path EISDIR), w')
      | Some (RegularFile data) => (Ok data, w')
      end
  | os_Open path =>
      match w_files w !! path with
      | None => (Err (PathError "open" path ENOENT), w')
      | Some _ => (Ok (mkFile path), w')
      end
  | io_ReadAll f =>
      match w_files w !! file_path f with
      | Some (RegularFile data) => (Ok data, w')
      | _ => (Err (PathError "read" (file_path f) EISDIR), w')
      end
  | File_Close _ => (None, w')
  | os_Remove path =>
      match w_files w !! path with
      | None => (Some (PathError "remove" path ENOENT), w')
      | Some n =>
          if w_readonly w then (Some (PathError "remove" path EROFS), w')
          else match n with
               | Directory =>
                   if has_entries path (w_files w)
                   then (Some (PathError "remove" path ENOTEMPTY), w')
                   else (None, with_files (delete path (w_files w)) w')
               | RegularFile _ => (None, with_files (delete path (w_files w)) w')
               end
      end
  | url_Parse rawURL => (w_url_Parse w rawURL, w')
  | http_Client_Do req => (w_net w (req_url req), w')
  end.

(** How a run ends. *)
Inductive outcome (A : Type) : Type :=
| Returned (a : A)
| Panicked (msg : string).
Arguments Returned {A} a.
Arguments Panicked {A} msg.

(** Running a program in a world. *)
Fixpoint exec {A : Type} (p : prog A) (w : world) : outcome A * world :=
  match p with
  | Ret a => (Returned a, w)
  | Panic msg => (Panicked msg, w)
  | Call c k => let '(r, w') := handle c w in exec (k r) w'
  end.

(** ** pkg/monitoring/monitor.go: the file store *)

(** [m[key]] on a [map[string]bool] that may be nil ([None]): the zero
    value [false] for a key the map does not hold, and for every key on a
    nil map. *)
Definition index (m : option (gmap string bool)) (key : string) : bool :=
  match m with
  | None => false
  | Some m => default false (m !! key)
  end.

(** [protected != nil] *)
Definition not_nil (m : option (gmap string bool)) : bool :=
  match m with
  | None => false
  | Some _ => true
  end.

(** [var protectedFiles = map[string]bool{...}], the same literal in the
    handler file and in main.go. *)
Definition protectedFiles : gmap string bool :=
  {[ ".first-mount.sh" := true; "lost+found" := true ]}.

(** [ReadFile(ctx, dir, name)] *)
Definition ReadFile (ctx : context) (dir name : string)
  : prog (Detail * option error) :=
  if negb (SafeFilename name) then
    Ret (None, Some (errorString "invalid filename"))
  else
    let p := filepath.Join dir name in
    r ← do (os_ReadFile p);
    match r with
    | Err err => Ret (None, Some err)
    | Ok b =>
        Ret (Some {[ "path" := AString p; "bytes" := AInt (len b);
                     "content" := AString b ]}, None)
    end.

(** [WriteFile(ctx, dir, name, content)] *)
Definition WriteFile (ctx : context) (dir name content : string)
  : prog (Detail * option error) :=
  if negb (SafeFilename name) then
    Ret (None, Some (errorString "invalid filename"))
  else
    let p := filepath.Join dir name in
    r ← do (os_WriteFile p content);
    match r with
    | Some err => Ret (None, Some err)
    | None =>
        Ret (Some {[ "written" := AString p; "bytes" := AInt (len content) ]},
             None)
    end.

(** [DeleteFile(ctx, dir, name, protected)] *)
Definition DeleteFile (ctx : context) (dir name : string)
    (protected : option (gmap string bool))
  : prog (Detail * option error) :=
  if negb (SafeFilename name) then
    Ret (None, Some (errorString "invalid filename"))
  else if not_nil protected && index protected name then
    Ret (None, Some ErrProtectedFile)
  else
    let p := filepath.Join dir name in
    r ← do (os_Remove p);
    match r with
    | Some err => Ret (None, Some err)
    | None => Ret (Some {[ "deleted" := AString p ]}, None)
    end.

(** ** pkg/monitoring/monitor.go: the file system self-test *)

(** [FilesystemSelfTest(ctx, dir)]. The deferred [f.Close()] runs on
    every return after the file was opened. *)
Definition FilesystemSelfTest (ctx : context) (dir : string)
  : prog (Detail * option error) :=
  t ← do time_Now;
  let now := UTC_RFC3339Nano t in
  let name := "selftest-" ++ now ++ ".txt" in
  let p := filepath.Join dir name in
  (* write *)
  let content := "selftest at " ++ now in
  werr ← do (os_WriteFile p content);
  match werr with
  | Some err => Ret (Some {[ "step" := AString "write"; "path" := AString p ]}, Some err)
  | None =>
      (* read *)
      opened ← do (os_Open p);
      match opened with
      | Err err =>
          Ret (Some {[ "step" := AString "open"; "path" := AString p ]}, Some err)
      | Ok f =>
          read ← do (io_ReadAll f);
          match read with
          | Err err =>
              _ ← do (File_Close f);
              Ret (Some {[ "step" := AString "read"; "path" := AString p ]}, Some err)
          | Ok got =>
              let match_ := String.eqb got content in
              (* delete *)
              delErr ← do (os_Remove p);
              _ ← do (File_Close f);
              Ret (Some {[ "dir" := AString dir;
                           "file" := AString name;
                           "writeBytes" := AInt (len content);
                           "readBytes" := AInt (len got);
                           "match" := ABool match_;
                           "deleteErr" := AString (errString delErr) ]}, None)
          end
      end
  end.

(** ** pkg/monitoring/monitor.go: the services probe *)

(** [httpNewRequestWithContext(ctx, method, url, nil)]: the request, or
    nil and the error of [url.Parse] ("GET" is a valid method and the
    context is not nil). *)
Definition httpNewRequestWithContext (ctx : context) (method url : string)
  : prog (option Request * option error) :=
  perr ← do (url_Parse url);
  match perr with
  | Some err => Ret (None, Some err)
  | None => Ret (Some (mkRequest ctx method url), None)
  end.

(** [client.Do(req)], down to the [Do] method of [http.Client]: it reads
    [req.URL] first, which on a nil request is a nil pointer dereference. *)
Definition httpClient_Do (req : option Request) : prog (res Z) :=
  match req with
  | None => Panic "runtime error: invalid memory address or nil pointer dereference"
  | Some req => do (http_Client_Do req)
  end.

(** The [for _, u := range urls] loop of [Services], on the two
    variables it updates. The response body is drained and closed with
    the results thrown away, which leaves nothing to model. *)
Fixpoint Services_loop (ctx : context) (urls : list string)
    (results : gmap string any) (allOK : bool)
  : prog (gmap string any * bool) :=
  match urls with
  | [] => Ret (results, allOK)
  | u :: urls =>
      '(req, _) ← httpNewRequestWithContext ctx "GET" u;
      r ← httpClient_Do req;
      match r with
      | Err err =>
          Services_loop ctx urls
            (<[u := AMap {[ "status" := AString "error";
                            "error" := AString (Error err) ]}]> results)
            false
      | Ok StatusCode =>
          if (200 <=? StatusCode) && (StatusCode <? 300) then
            Services_loop ctx urls
              (<[u := AMap {[ "status" := AString "ok";
                              "code" := AInt StatusCode ]}]> results)
              allOK
          else
            Services_loop ctx urls
              (<[u := AMap {[ "status" := AString "degraded";
                              "code" := AInt StatusCode ]}]> results)
              false
      end
  end.

(** [Services(ctx, urls)] *)
Definition Services (ctx : context) (urls : list string)
  : prog (Detail * option error) :=
  '(results, allOK) ← Services_loop ctx urls ∅ true;
  if negb allOK then
    Ret (Some {[ "services" := AMap results ]},
         Some (errorString "one or more services failing"))
  else
    Ret (Some {[ "services" := AMap results ]}, None).

(** ** The HTTP layer *)

(** What a handler reads from its [*gin.Context]: the context of the
    request and the decoded query string (each value is what
    [url.QueryUnescape] makes of the text in the request line). *)
Record gin_Context : Type := mkContext {
  Request_Context : context;
  query_values : gmap string string
}.

(** [c.Query(key)]: the value, or the empty string without one. *)
Definition Query (c : gin_Context) (key : string) : string :=
  default "" (query_values c !! key).

(** What a handler writes: [c.JSON(code, obj)], [c.String(code, text)] or
    [c.Data(code, contentType, body)]. Every path of the handlers below
    writes once and returns. *)
Inductive response : Type :=
| c_JSON (code : Z) (obj : gmap string any)
| c_String (code : Z) (text : string)
| c_Data (code : Z) (contentType body : string).

Definition StatusOK : Z := 200.
Definition StatusBadRequest : Z := 400.
Definition StatusForbidden : Z := 403.
Definition StatusNotFound : Z := 404.
Definition StatusInternalServerError : Z := 500.
Definition StatusServiceUnavailable : Z := 503.

(** The field of [configuration.Config] the handlers read. *)
Record AppConfig : Type := mkConfig { AppDataDir : string }.

(** [time.Since(start)] *)
Definition time_Since (start : Time) : prog Z :=
  now ← do time_Now;
  Ret (Time_Sub now start).

(** [(h *handler) run(c, name, timeout, fn)], the shared runner of the
    monitoring handler. *)
Definition run (c : gin_Context) (name : string) (timeout : Z)
    (fn : context → prog (Detail * option error)) : prog response :=
  start ← do time_Now;
  let ctx := ctx_WithTimeout (Request_Context c) timeout in
  '(detail, err) ← fn ctx;
  d ← time_Since start;
  let lat := Milliseconds d in
  match err with
  | Some err =>
      Ret (c_JSON StatusServiceUnavailable
             {[ "status" := AString "error";
                "name" := AString name;
                "latencyMs" := AInt lat;
                "error" := AString (Error err);
                "detail" := any_of_Detail detail ]})
  | None =>
      Ret (c_JSON StatusOK
             {[ "status" := AString "ok";
                "name" := AString name;
                "latencyMs" := AInt lat;
                "detail" := any_of_Detail detail ]})
  end.

(** [runCheck(c, name, timeout, fn)] of main.go. *)
Definition runCheck (c : gin_Context) (name : string) (timeout : Z)
    (fn : context → prog (Detail * option error)) : prog response :=
  start ← do time_Now;
  let ctx := ctx_WithTimeout (Request_Context c) timeout in
  '(detail, err) ← fn ctx;
  d ← time_Since start;
  let latency := Milliseconds d in
  match err with
  | Some err =>
      Ret (c_JSON StatusServiceUnavailable
             {[ "status" := AString "error";
                "name" := AString name;
                "latencyMs" := AInt latency;
                "error" := AString (Error err);
                "detail" := any_of_Detail detail ]})
  | None =>
      Ret (c_JSON StatusOK
             {[ "status" := AString "ok";
                "name" := AString name;
                "latencyMs" := AInt latency;
                "detail" := any_of_Detail detail ]})
  end.

(** [(h *handler) DataReadText()] *)
Definition DataReadText (Config : AppConfig) (c : gin_Context) : prog response :=
  let name := strings.TrimSpace (Query c "file") in
  if String.eqb name "" then
    Ret (c_String StatusBadRequest "missing 'file' query param")
  else
    let ctx := ctx_WithTimeout (Request_Context c) (1500 * Millisecond) in
    '(detail, err) ← ReadFile ctx (AppDataDir Config) name;
    match err with
    | Some err => Ret (c_String StatusNotFound (Error err))
    | None =>
        let content :=
          match detail with
          | Some d => match d !! "content" with
                      | Some (AString s) => s
                      | _ => ""
                      end
          | None => ""
          end in
        Ret (c_Data StatusOK "text/plain; charset=utf-8" content)
    end.

(** [(h *handler) DataDelete()] *)
Definition DataDelete (Config : AppConfig) (c : gin_Context) : prog response :=
  let name := strings.TrimSpace (Query c "file") in
  if String.eqb name "" then
    Ret (c_JSON StatusBadRequest {[ "error" := AString "missing 'file' query param" ]})
  else if index (Some protectedFiles) name then
    (* Enforce protected files *)
    Ret (c_JSON StatusForbidden
           {[ "error" := AString (strconv.Quote name
                                  ++ " is protected and cannot be deleted") ]})
  else
    run c "data-delete" (1500 * Millisecond)
        (λ ctx, DeleteFile ctx (AppDataDir Config) name (Some protectedFiles)).

(** The [api.DELETE("/", ...)] handler of main.go, on its [dataDir]. *)
Definition main_DELETE (dataDir : string) (c : gin_Context) : prog response :=
  let name := Query c "file" in
  if String.eqb name "" || negb (safeFilename name) then
    Ret (c_JSON StatusBadRequest
           {[ "error" := AString "missing or invalid file query param" ]})
  else if index (Some protectedFiles) name then
    Ret (c_JSON StatusForbidden
           {[ "error" := AString "file is protected and cannot be deleted" ]})
  else
    let p := filepath.Join dataDir name in
    r ← do (os_Remove p);
    match r with
    | Some err =>
        Ret (c_JSON StatusInternalServerError {[ "error" := AString (Error err) ]})
    | None => Ret (c_JSON StatusOK {[ "deleted" := AString p ]})
    end.

(** ** Sample environments

    A data volume as the deployment mounts it, and the same volume
    mounted read-only; used to run the programs on concrete inputs. The
    URL parser is the model of [url.Parse] above. *)

Definition sample_net (url : string) : res Z :=
  if String.eqb url "http://ok.example" then Ok 200
  else if String.eqb url "http://down.example" then
    Err (errorString "dial tcp: connect: connection refused")
  else Ok 404.

Definition sample_world : world :=
  mkWorld {[ "/data/lost+found" := Directory;
             "/data/.first-mount.sh" := RegularFile "#!/bin/sh";
             "/data/notes.txt" := RegularFile "hello" ]}
          false 0 (λ _, 250000%N) (λ _, "2024-05-17T09:30:00.000000001Z")
          url.Parse sample_net [].

Definition readonly_world : world :=
  mkWorld (w_files sample_world) true 0 (w_duration sample_world)
          (w_format sample_world) url.Parse sample_net [].

(** ** What the services probe records

    The entry the loop of [Services] stores for one answer of the HTTP
    client, and whether the answer keeps [allOK]. *)

Definition answered_2xx (r : res Z) : bool :=
  match r with
  | Ok StatusCode => (200 <=? StatusCode) && (StatusCode <? 300)
  | Err _ => false
  end.

Definition service_report (r : res Z) : any :=
  match r with
  | Err err => AMap {[ "status" := AString "error"; "error" := AString (Error err) ]}
  | Ok StatusCode =>
      if answered_2xx r
      then AMap {[ "status" := AString "ok"; "code" := AInt StatusCode ]}
      else AMap {[ "status" := AString "degraded"; "code" := AInt StatusCode ]}
  end.

(** ** More of [strings] *)

(** [strings.Split(s, sep)] for a one-byte separator: the pieces between
    the separators, one piece (the empty one) for the empty string. *)
Fixpoint strings_Split (s : string) (sep : ascii) : list string :=
  match s with
  | EmptyString => [EmptyString]
  | String c rest =>
      if Ascii.eqb c sep then EmptyString :: strings_Split rest sep
      else match strings_Split rest sep with
           | [] => [String c EmptyString]
           | e :: es => String c e :: es
           end
  end.

(** [trimLeftByte(s, c)] and [trimRightByte(s, c)] *)
Fixpoint trimLeftByte (s : string) (c : ascii) : string :=
  match s with
  | String d rest => if Ascii.eqb d c then trimLeftByte rest c else s
  | EmptyString => EmptyString
  end.

Fixpoint trimRightByte (s : string) (c : ascii) : string :=
  match s with
  | EmptyString => EmptyString
  | String d rest =>
      match trimRightByte rest c with
      | EmptyString => if Ascii.eqb d c then EmptyString else String d EmptyString
      | rest' => String d rest'
      end
  end.

(** [strings.Trim(s, cutset)] for a cutset of one ASCII byte. *)
Definition strings_Trim (s : string) (c : ascii) : string :=
  trimLeftByte (trimRightByte s c) c.

(** The first [n] bytes of [s], and [s] without them ([s[:n]], [s[n:]],
    cut short at the end of [s]). *)
Fixpoint string_take (n : nat) (s : string) : string :=
  match n, s with
  | S n, String c rest => String c (string_take n rest)
  | _, _ => EmptyString
  end.

Fixpoint string_drop (n : nat) (s : string) : string :=
  match n, s with
  | S n, String _ rest => string_drop n rest
  | _, _ => s
  end.

(** ** The monitoring handler: the other endpoints on the runner *)

(** [(h *handler) FilesystemSelfTest()] *)
Definition handler_FilesystemSelfTest (Config : AppConfig) (c : gin_Context)
  : prog response :=
  run c "fs-selftest" (1500 * Millisecond)
      (λ ctx, FilesystemSelfTest ctx (AppDataDir Config)).

(** The loop of [(h *handler) Services()] over the pieces of the
    environment variable: [urls = append(urls, s)] for each piece that is
    not blank. *)
Fixpoint service_urls_loop (pieces urls : list string) : list string :=
  match pieces with
  | [] => urls
  | u :: pieces =>
      let s := strings.TrimSpace u in
      if negb (String.eqb s "") then service_urls_loop pieces (urls ++ [s])
      else service_urls_loop pieces urls
  end.

(** The URLs the services endpoint probes, from the value of
    [APP_CHECK_SERVICE_URLS] ([CHECK_SERVICE_URLS] in main.go). *)
Definition service_urls (urlsEnv : string) : list string :=
  let urls := service_urls_loop (strings_Split urlsEnv ","%char) [] in
  if (length urls =? 0)%nat then ["https://api.github.com"] (* sensible default *)
  else urls.

(** [(h *handler) Services()], on the value of the environment variable. *)
Definition handler_Services (urlsEnv : string) (c : gin_Context) : prog response :=
  run c "services" (2500 * Millisecond)
      (λ ctx, Services ctx (service_urls urlsEnv)).

(** ** main.go: the other handlers *)

(** [simulateCheck(c, successMsg, _, _)]; the two further parameters have
    no name and no use. *)
Definition simulateCheck (c : gin_Context) (successMsg : string) : prog response :=
  runCheck c "legacy" (1500 * Millisecond)
           (λ ctx, Ret (Some {[ "message" := AString successMsg ]}, None)).

(** The [api.POST("/write", ...)] handler. [bound] is what
    [c.ShouldBindJSON(&req)] gives: the fields [File] and [Content] of the
    request body, or its error. *)
Definition main_write (dataDir : string) (bound : res (string * string))
  : prog response :=
  match bound with
  | Err _ => Ret (c_JSON StatusBadRequest
                    {[ "error" := AString "provide JSON {file, content}" ]})
  | Ok (File, Content) =>
      if String.eqb File "" then
        Ret (c_JSON StatusBadRequest
               {[ "error" := AString "provide JSON {file, content}" ]})
      else if negb (safeFilename File) then
        Ret (c_JSON StatusBadRequest {[ "error" := AString "invalid file name" ]})
      else
        let p := filepath.Join dataDir File in
        r ← do (os_WriteFile p Content);
        match r with
        | Some err =>
            Ret (c_JSON StatusInternalServerError
                   {[ "error" := AString (Error err) ]})
        | None =>
            Ret (c_JSON StatusOK
                   {[ "written" := AString p; "bytes" := AInt (len Content) ]})
        end
  end.

(** The [api.GET("/read", ...)] handler. *)
Definition main_read (dataDir : string) (c : gin_Context) : prog response :=
  let name := Query c "file" in
  if String.eqb name "" || negb (safeFilename name) then
    Ret (c_JSON StatusBadRequest
           {[ "error" := AString "missing or invalid file query param" ]})
  else
    let p := filepath.Join dataDir name in
    r ← do (os_ReadFile p);
    match r with
    | Err err =>
        if IsNotExist err then
          Ret (c_JSON StatusNotFound {[ "error" := AString "not found" ]})
        else
          Ret (c_JSON StatusInternalServerError
                 {[ "error" := AString (Error err) ]})
    | Ok b => Ret (c_Data StatusOK "text/plain; charset=utf-8" b)
    end.

(** The [api.POST("/selftest", ...)] handler: the self-test written
    inline, answering by itself. *)
Definition main_selftest (dataDir : string) : prog response :=
  t ← do time_Now;
  let now := UTC_RFC3339Nano t in
  let name := "selftest-" ++ now ++ ".txt" in
  let p := filepath.Join dataDir name in
  (* write *)
  let content := "selftest at " ++ now in
  werr ← do (os_WriteFile p content);
  match werr with
  | Some err =>
      Ret (c_JSON StatusInternalServerError
             {[ "step" := AString "write"; "error" := AString (Error err);
                "path" := AString p ]})
  | None =>
      (* read *)
      opened ← do (os_Open p);
      match opened with
      | Err err =>
          Ret (c_JSON StatusInternalServerError
                 {[ "step" := AString "open"; "error" := AString (Error err);
                    "path" := AString p ]})
      | Ok f =>
          read ← do (io_ReadAll f);
          match read with
          | Err err =>
              _ ← do (File_Close f);
              Ret (c_JSON StatusInternalServerError
                     {[ "step" := AString "read"; "error" := AString (Error err);
                        "path" := AString p ]})
          | Ok got =>
              let ok := String.eqb got content in
              (* delete *)
              delErr ← do (os_Remove p);
              _ ← do (File_Close f);
              Ret (c_JSON StatusOK
                     {[ "dir" := AString dataDir;
                        "file" := AString name;
                        "writeBytes" := AInt (len content);
                        "readBytes" := AInt (len got);
                        "match" := ABool ok;
                        "deleteErr" := AString (errString delErr) ]})
          end
      end
  end.

(** What main.go's self-test answers for a result of
    [FilesystemSelfTest]: 200 with the detail, or 500 with the detail and
    the error's message under "error". *)
Definition selftest_response (r : Detail * option error) : response :=
  match r with
  | (d, None) => c_JSON StatusOK (default ∅ d)
  | (d, Some err) =>
      c_JSON StatusInternalServerError
             (<["error" := AString (Error err)]> (default ∅ d))
  end.

(** ** The monitoring SPA mount (pkg/checkers/ui.go) *)

Record MonitoringUIOptions : Type := mkUIOptions {
  StaticDir : string;
  IndexFile : string;
  BasePath : string;
  AssetsPath : string
}.

(** The base path [AttachMonitoring] mounts on: the default when none is
    given, then ["/" + strings.Trim(strings.TrimSpace(base), "/")]. *)
Definition monitoring_base (opts : MonitoringUIOptions) : string :=
  let base := BasePath opts in
  let base := if String.eqb base "" then "/monitoring" else base in
  (* normalize: single leading slash, no trailing slash *)
  "/" ++ strings_Trim (strings.TrimSpace base) "/"%char.

(** What [AttachMonitoring] registers on the engine. *)
Record monitoring_routes : Type := mkRoutes {
  static_mount : option (string * string); (* r.Static(assets, StaticDir) *)
  entry_route : string;                    (* r.GET(base, ...) *)
  index_path : string                      (* the file both handlers serve *)
}.

(** [AttachMonitoring(r, opts)]; [r_nil] says that the engine is nil.
    [None]: nothing is registered. *)
Definition AttachMonitoring (r_nil : bool) (opts : MonitoringUIOptions)
  : option monitoring_routes :=
  if r_nil then None
  else if String.eqb (StaticDir opts) "" || String.eqb (IndexFile opts) "" then None
  else
    let base := monitoring_base opts in
    let indexPath := filepath.Join (StaticDir opts) (IndexFile opts) in
    let p := strings.TrimSpace (AssetsPath opts) in
    let static :=
      if negb (String.eqb p "") then
        Some ("/" ++ strings_Trim p "/"%char, StaticDir opts)
      else None in
    Some (mkRoutes static base indexPath).

(** The test of the [NoRoute] handler: whether the unmatched path [p]
    gets the index file. *)
Definition NoRoute_serves_index (base p : string) : bool :=
  String.eqb p base || strings.HasPrefix p (base ++ "/").

(** ** The event log tail (monitor.go) *)

(** An [int] (64 bits) after an addition: wrapped around. *)
Definition int_wrap (z : Z) : Z := (z + 2 ^ 63) mod 2 ^ 64 - 2 ^ 63.

(** [io.EOF], and [errors.Is(err, io.EOF)]. *)
Definition io_EOF : error := errorString "EOF".

Definition is_EOF (err : error) : bool :=
  match err with
  | errorString msg => String.eqb msg "EOF"
  | PathError _ _ _ => false
  end.

(** What the operating system answers to [os.Open(logPath)] and to the
    calls on the file: the error of the open, or the size [f.Stat()]
    reports ([None] when [Stat] fails) and, for [f.ReadAt(chunk, off)] with
    a chunk of [n] bytes, the bytes read and the error. *)
Inductive opened_log : Type :=
| open_failed (err : error)
| open_ok (size : option Z) (ReadAt : Z → Z → string * option error).

(** A [[]string]: the nil slice, or a slice with its elements. *)
Inductive string_slice : Type :=
| nil_slice
| slice_of (elems : list string).

(** The [Detail] of [EventLogTail]: the "path", and the "lines" when the
    key is there. (A [[]string] is no [any] of the model above, so this
    detail gets a type of its own.) *)
Record log_detail : Type := mkLogDetail {
  log_path : string;
  log_lines : option string_slice
}.

(** [const block = 64 * 1024] *)
Definition block : Z := 64 * 1024.

(** [bufio.MaxScanTokenSize] *)
Definition MaxScanTokenSize : Z := 64 * 1024.

Definition carriage_return : ascii := "013"%char.
Definition line_feed : ascii := "010"%char.

(** [dropCR(data)]: without one carriage return at the end. *)
Fixpoint dropCR (data : string) : string :=
  match data with
  | EmptyString => EmptyString
  | String c EmptyString =>
      if Ascii.eqb c carriage_return then EmptyString else data
  | String c rest => String c (dropCR rest)
  end.

(** The loop [for sc.Scan() { lines = append(lines, sc.Text()) }] of a
    [bufio.Scanner] with [bufio.ScanLines] on the bytes left, [cur]
    being the bytes of the line read so far. A line ends at a line feed;
    what is left at the end of the input is a last line unless it is
    empty. A line that does not fit the scanner's buffer together with
    its line feed ([MaxScanTokenSize] bytes) ends the scan with
    [ErrTooLong], which the code does not look at: the lines before it
    are kept. *)
Fixpoint scan_lines (data cur : string) : list string :=
  match data with
  | EmptyString =>
      if String.eqb cur "" then [] else [dropCR cur]
  | String c rest =>
      if Ascii.eqb c line_feed then dropCR cur :: scan_lines rest EmptyString
      else if MaxScanTokenSize <=? len cur + 1 then []
      else scan_lines rest (cur ++ String c EmptyString)
  end.

(** The chunk after [f.ReadAt(chunk, offset)] read [got] into it: [n]
    bytes, the zero bytes of [make([]byte, n)] where nothing was read. *)
Definition chunk_after_read (n : Z) (got : string) : string :=
  string_take (Z.to_nat n)
    (got ++ string_of_list_ascii (repeat zero (Z.to_nat n))).

(** The loop that reads the file backwards, a block at a time, for at
    most [rounds] rounds. [lines] is still empty here, so the second half
    of the loop test, [len(lines) < maxLines+1], is [0 < maxLines+1]. *)
Fixpoint read_blocks (rounds : nat) (ReadAt : Z → Z → string * option error)
    (maxLines offset : Z) (buf : string) : res string :=
  match rounds with
  | O => Ok buf
  | S rounds =>
      if (0 <? offset) && (0 <? int_wrap (maxLines + 1)) then
        let readSize := if offset <? block then offset else block in
        let offset := offset - readSize in
        let '(got, err) := ReadAt readSize offset in
        let chunk := chunk_after_read readSize got in
        match err with
        | Some err =>
            if negb (is_EOF err) then Err err
            else read_blocks rounds ReadAt maxLines offset (chunk ++ buf)
        | None => read_blocks rounds ReadAt maxLines offset (chunk ++ buf)
        end
      else Ok buf
  end.

(** [lines[len(lines)-maxLines:]] when there are more than [maxLines]. *)
Definition last_lines (maxLines : Z) (lines : list string) : string_slice :=
  if maxLines <? Z.of_nat (length lines) then
    slice_of (drop (length lines - Z.to_nat maxLines) lines)
  else match lines with
       | [] => nil_slice
       | _ => slice_of lines
       end.

(** [EventLogTail(ctx, logPath, maxLines)], on the answers of the
    operating system. Every round of the reading loop takes at least one
    byte off [offset], so [size] rounds are enough for it to end. *)
Definition EventLogTail (ctx : context) (logPath : string) (maxLines : Z)
    (os : opened_log) : outcome (log_detail * option error) :=
  let maxLines := if maxLines <=? 0 then 100 else maxLines in
  match os with
  | open_failed err =>
      if IsNotExist err then
        Returned (mkLogDetail logPath (Some (slice_of [])), None)
      else Returned (mkLogDetail logPath None, Some err)
  | open_ok None _ =>
      Panicked "runtime error: invalid memory address or nil pointer dereference"
  | open_ok (Some size) ReadAt =>
      match read_blocks (Z.to_nat size) ReadAt maxLines size EmptyString with
      | Err err => Returned (mkLogDetail logPath None, Some err)
      | Ok buf =>
          let lines := scan_lines buf EmptyString in
          Returned (mkLogDetail logPath (Some (last_lines maxLines lines)), None)
      end
  end.

(** A file that holds [data] and does not change while it is read:
    [ReadAt] gives the bytes from [off] on, with [io.EOF] when they are
    fewer than asked for. *)
Definition file_ReadAt (data : string) (n off : Z) : string * option error :=
  let got := string_take (Z.to_nat n) (string_drop (Z.to_nat off) data) in
  (got, if len got <? n then Some io_EOF else None).

(** ** Where a name lands

    The path of the entry [name] directly inside the cleaned directory
    [dir]. *)
Definition child_path (dir name : string) : string :=
  if String.eqb dir "/" then "/" ++ name
  else if String.eqb dir "." then name
  else dir ++ "/" ++ name.

(** ** Two notions for the properties below *)

(** The envelope the runner writes for a probe that returned
    [(detail, err)] after [latencyMs] milliseconds. *)
Definition envelope (name : string) (latencyMs : Z) (detail : Detail)
    (err : option error) : response :=
  match err with
  | Some err =>
      c_JSON StatusServiceUnavailable
             {[ "status" := AString "error";
                "name" := AString name;
                "latencyMs" := AInt latencyMs;
                "error" := AString (Error err);
                "detail" := any_of_Detail detail ]}
  | None =>
      c_JSON StatusOK
             {[ "status" := AString "ok";
                "name" := AString name;
                "latencyMs" := AInt latencyMs;
                "detail" := any_of_Detail detail ]}
  end.

(** Whatever the environment answers, the program writes and removes at
    the paths that satisfy [allowed] only. *)
Fixpoint writes_only (allowed : string → Prop) {A : Type} (p : prog A) : Prop :=
  match p with
  | Ret _ => True
  | Panic _ => True
  | Call c k =>
      match c with
      | os_WriteFile path _ => allowed path
      | os_Remove path => allowed path
      | _ => True
      end ∧ ∀ r, writes_only allowed (k r)
  end.

(** * Properties *)

(** ** Paths and the filename guard *)

Lemma Contains_separator s :
  strings.Contains s "/" = filepath.has_separator s.
Proof.
  induction s as [|c s IH]; [reflexivity|].
  cbn [strings.Contains filepath.has_separator]. rewrite IH.
  unfold strings.HasPrefix, filepath.IsPathSeparator, filepath.Separator.
  cbn [String.prefix].
  destruct (ascii_dec "/" c) as [<-|Hne].
  - by destruct s.
  - destruct (Ascii.eqb_spec c "/"); [congruence|reflexivity].
Qed.

(** What is left after the last separator holds none. *)
Lemma after_last_separator_clean s :
  filepath.has_separator (filepath.after_last_separator s) = false.
Proof.
  induction s as [|c s IH]; [reflexivity|].
  cbn [filepath.after_last_separator].
  destruct (filepath.has_separator s) eqn:Hs; [exact IH|].
  destruct (filepath.IsPathSeparator c) eqn:Hc; [exact Hs|].
  cbn [filepath.has_separator]. by rewrite Hc, Hs.
Qed.

(** The one result of [Base] with a separator in it is the root. *)
Lemma Base_separator s :
  filepath.has_separator (filepath.Base s) = true → filepath.Base s = "/".
Proof.
  unfold filepath.Base. destruct (String.eqb s ""); [discriminate|].
  cbv zeta.
  destruct (String.eqb (filepath.after_last_separator _) ""); [reflexivity|].
  by rewrite after_last_separator_clean.
Qed.

Lemma split_plain s :
  filepath.has_separator s = false → filepath.split s = [s].
Proof.
  induction s as [|c s IH]; [reflexivity|].
  cbn [filepath.has_separator filepath.split].
  destruct (filepath.IsPathSeparator c); [discriminate|].
  cbn [orb]. intros Hs. by rewrite (IH Hs).
Qed.

(** The two guards are one function. *)
Lemma safeFilename_SafeFilename name : safeFilename name = SafeFilename name.
Proof.
  unfold safeFilename, SafeFilename.
  destruct (_ || _); [reflexivity|]. by destruct (String.eqb _ name).
Qed.

(** A name the guard accepts has a separator only when it is the root. *)
Lemma SafeFilename_separator name :
  SafeFilename name = true → filepath.has_separator name = true → name = "/".
Proof.
  unfold SafeFilename. destruct (_ || _); [discriminate|].
  intros Hb%String.eqb_eq Hs. rewrite <- Hb in Hs.
  apply Base_separator in Hs. congruence.
Qed.

(** The lone separator passes the guard ([filepath.Base("/")] is ["/"]),
    and joined to a directory it names the directory itself. *)
Lemma SafeFilename_root :
  SafeFilename "/" = true ∧ filepath.Join "/data" "/" = "/data".
Proof. split; reflexivity. Qed.

(** C1, as the code has it: the guard, in both its copies, rejects the
    empty name, ["."], [".."], every name with a separator in it other
    than the lone ["/"], and so every name with [".."] as one of its path
    elements. (Two dots inside an element, as in ["a..b"], are not a
    traversal and are not rejected.) *)
Theorem SafeFilename_rejects (name : string) :
  name = "" ∨ name = "." ∨ name = ".." ∨
  (strings.Contains name "/" = true ∧ name ≠ "/") ∨
  ".." ∈ filepath.split name →
  SafeFilename name = false ∧ safeFilename name = false.
Proof.
  intros H. rewrite safeFilename_SafeFilename.
  assert (SafeFilename name = false); [|done].
  destruct H as [->|[->|[->|[[Hs Hne]|Hin]]]]; try reflexivity.
  - rewrite Contains_separator in Hs.
    destruct (SafeFilename name) eqn:Hsafe; [|reflexivity].
    destruct Hne. by apply SafeFilename_separator.
  - destruct (SafeFilename name) eqn:Hsafe; [|reflexivity].
    destruct (filepath.has_separator name) eqn:Hs.
    + rewrite (SafeFilename_separator _ Hsafe Hs) in Hin. cbn in Hin.
      repeat (apply elem_of_cons in Hin as [[=]|Hin]).
      by apply elem_of_nil in Hin.
    + rewrite (split_plain _ Hs) in Hin.
      apply list_elem_of_singleton in Hin. subst name. discriminate Hsafe.
Qed.

Lemma SafeFilename_rejects_witness :
  SafeFilename "../etc/passwd" = false ∧ safeFilename "../etc/passwd" = false.
Proof.
  apply (SafeFilename_rejects "../etc/passwd").
  right; right; right; left. split; [reflexivity|discriminate].
Defined.

(** C1, as the specification has it, fails: ["a..b"] contains [".."] and
    the guard accepts it. *)
Lemma SafeFilename_dots_inside_accepted :
  ¬ (∀ name : string,
       strings.Contains name "/" = true ∨ strings.Contains name ".." = true ∨
       name = "" ∨ name = "." ∨ name = ".." →
       SafeFilename name = false).
Proof.
  intros H.
  assert (SafeFilename "a..b" = true) as Hsafe by reflexivity.
  rewrite (H "a..b") in Hsafe; [discriminate|].
  right; left. reflexivity.
Qed.

(** ** Running programs *)

Lemma exec_Call {A} c (k : reply c → prog A) w :
  exec (Call c k) w = exec (k (handle c w).1) (handle c w).2.
Proof. cbn [exec]. by destruct (handle c w). Qed.

Lemma exec_bind {A B} (p : prog A) (f : A → prog B) w :
  exec (p ≫= f) w =
  match exec p w with
  | (Returned a, w') => exec (f a) w'
  | (Panicked msg, w') => (Panicked msg, w')
  end.
Proof.
  revert w. induction p as [a|msg|c k IH]; intros w; try reflexivity.
  change (exec (Call c k ≫= f) w) with
    (let '(r, w') := handle c w in exec (k r ≫= f) w').
  cbn [exec]. destruct (handle c w) as [r w']. apply IH.
Qed.

(** Turns the binds of a program into the tree of its calls. *)
Ltac calls := unfold mbind, prog_bind, do; cbn [bind].

(** Every call is recorded, takes some time, and leaves the network and
    the URL parser as they were. *)
Lemma handle_trace c w : w_trace (handle c w).2 = (w_trace w ++ [c])%list.
Proof. destruct c; cbn; repeat case_match; reflexivity. Qed.

Lemma handle_clock c w :
  w_clock (handle c w).2 = w_clock w + Z.of_N (w_duration w c).
Proof. destruct c; cbn; repeat case_match; reflexivity. Qed.

(** The clock never runs backwards. *)
Lemma exec_clock_mono {A} (p : prog A) w : w_clock w ≤ w_clock (exec p w).2.
Proof.
  revert w. induction p as [a|msg|c k IH]; intros w; [cbn; lia..|].
  rewrite exec_Call. etrans; [|apply IH]. rewrite handle_clock. lia.
Qed.

(** The file system calls, case by case. *)
Lemma handle_WriteFile_ok path data w w' :
  handle (os_WriteFile path data) w = (None, w') →
  w_files w' !! path = Some (RegularFile data) ∧ w_readonly w' = false.
Proof.
  cbn. destruct (w_readonly w) eqn:Hro; [discriminate|].
  destruct (w_files w !! path) as [[]|]; try discriminate;
    intros [= <-]; cbn; by rewrite lookup_insert_eq.
Qed.

Lemma handle_Open_found path n w :
  w_files w !! path = Some n →
  handle (os_Open path) w = (Ok (mkFile path), tick (os_Open path) w).
Proof. intros H. cbn. by rewrite H. Qed.

Lemma handle_ReadAll_file path data w :
  w_files w !! path = Some (RegularFile data) →
  handle (io_ReadAll (mkFile path)) w
  = (Ok data, tick (io_ReadAll (mkFile path)) w).
Proof. intros H. cbn. by rewrite H. Qed.

Lemma handle_Remove_file path data w :
  w_files w !! path = Some (RegularFile data) →
  w_readonly w = false →
  handle (os_Remove path) w
  = (None, with_files (delete path (w_files w)) (tick (os_Remove path) w)).
Proof. intros H Hrw. cbn. by rewrite H, Hrw. Qed.

Lemma handle_url_Parse_ok u w :
  w_url_Parse w u = None → handle (url_Parse u) w = (None, tick (url_Parse u) w).
Proof. intros H. cbn. by rewrite H. Qed.

(** ** The file store *)

(** Past the guard, each operation is its one call. *)
Lemma exec_ReadFile ctx dir name w :
  SafeFilename name = true →
  let p := filepath.Join dir name in
  exec (ReadFile ctx dir name) w =
  (match (handle (os_ReadFile p) w).1 with
   | Err err => Returned (None, Some err)
   | Ok b => Returned (Some {[ "path" := AString p; "bytes" := AInt (len b);
                               "content" := AString b ]}, None)
   end, (handle (os_ReadFile p) w).2).
Proof.
  intros Hsafe p. unfold ReadFile. rewrite Hsafe.
  cbn -[handle filepath.Join]. fold p.
  by destruct (handle (os_ReadFile p) w) as [[] ?].
Qed.

Lemma exec_WriteFile ctx dir name content w :
  SafeFilename name = true →
  let p := filepath.Join dir name in
  exec (WriteFile ctx dir name content) w =
  (match (handle (os_WriteFile p content) w).1 with
   | Some err => Returned (None, Some err)
   | None => Returned (Some {[ "written" := AString p;
                               "bytes" := AInt (len content) ]}, None)
   end, (handle (os_WriteFile p content) w).2).
Proof.
  intros Hsafe p. unfold WriteFile. rewrite Hsafe.
  cbn -[handle filepath.Join]. fold p.
  by destruct (handle (os_WriteFile p content) w) as [[] ?].
Qed.

Lemma exec_DeleteFile ctx dir name protected w :
  SafeFilename name = true →
  not_nil protected && index protected name = false →
  let p := filepath.Join dir name in
  exec (DeleteFile ctx dir name protected) w =
  (match (handle (os_Remove p) w).1 with
   | Some err => Returned (None, Some err)
   | None => Returned (Some {[ "deleted" := AString p ]}, None)
   end, (handle (os_Remove p) w).2).
Proof.
  intros Hsafe Hfree p. unfold DeleteFile. rewrite Hsafe, Hfree.
  cbn -[handle filepath.Join]. fold p.
  by destruct (handle (os_Remove p) w) as [[] ?].
Qed.

(** The protected names are the two of the literal. *)
Lemma protectedFiles_lookup name :
  protectedFiles !! name = Some true ↔
  name = ".first-mount.sh" ∨ name = "lost+found".
Proof.
  unfold protectedFiles. split.
  - intros H. apply lookup_insert_Some in H as [[<- _]|[_ H]]; [by left|].
    apply lookup_singleton_Some in H as [<- _]. by right.
  - by intros [->| ->].
Qed.

(** C2: on a name the guard rejects, [ReadFile], [WriteFile] and
    [DeleteFile] return the "invalid filename" error at once: the world
    they run in comes back as it was, with no call made, so no file is
    read, created, overwritten or removed. *)
Theorem unsafe_name_fails_fast ctx dir name content protected w :
  SafeFilename name = false →
  let invalid := (None, Some (errorString "invalid filename")) in
  exec (ReadFile ctx dir name) w = (Returned invalid, w) ∧
  exec (WriteFile ctx dir name content) w = (Returned invalid, w) ∧
  exec (DeleteFile ctx dir name protected) w = (Returned invalid, w).
Proof.
  intros Hunsafe. unfold ReadFile, WriteFile, DeleteFile.
  by rewrite Hunsafe.
Qed.

Lemma unsafe_name_fails_fast_witness :
  let invalid := (None, Some (errorString "invalid filename")) in
  exec (ReadFile ctx_Background "/data" "../etc/passwd") sample_world
    = (Returned invalid, sample_world) ∧
  exec (WriteFile ctx_Background "/data" "../etc/passwd" "x") sample_world
    = (Returned invalid, sample_world) ∧
  exec (DeleteFile ctx_Background "/data" "../etc/passwd" (Some protectedFiles))
       sample_world
    = (Returned invalid, sample_world).
Proof.
  apply (unsafe_name_fails_fast ctx_Background "/data" "../etc/passwd" "x"
           (Some protectedFiles) sample_world).
  reflexivity.
Defined.

(** The read endpoint answers a traversal with 404 and the guard's
    message, without a call. *)
Example DataReadText_traversal Config ctx w :
  exec (DataReadText Config (mkContext ctx {[ "file" := "../etc/passwd" ]})) w
  = (Returned (c_String StatusNotFound "invalid filename"), w).
Proof. reflexivity. Qed.

(** C3: to delete a protected name fails with the protected condition,
    in every world (so also where no such file exists) and with no call
    made (so before any removal): [DeleteFile] on the protected set
    returns [ErrProtectedFile], the [DataDelete] handler answers 403, and
    so does the DELETE handler of main.go. *)
Theorem protected_name_delete_forbidden name :
  protectedFiles !! name = Some true →
  (∀ ctx dir w,
     exec (DeleteFile ctx dir name (Some protectedFiles)) w
     = (Returned (None, Some ErrProtectedFile), w)) ∧
  (∀ Config c w,
     Query c "file" = name →
     exec (DataDelete Config c) w
     = (Returned (c_JSON StatusForbidden
          {[ "error" := AString (strconv.Quote name
                                 ++ " is protected and cannot be deleted") ]}), w)) ∧
  (∀ dataDir c w,
     Query c "file" = name →
     exec (main_DELETE dataDir c) w
     = (Returned (c_JSON StatusForbidden
          {[ "error" := AString "file is protected and cannot be deleted" ]}), w)).
Proof.
  intros Hp%protectedFiles_lookup. split; [|split].
  - intros ctx dir w. by destruct Hp as [-> | ->].
  - intros Config c w Hq. unfold DataDelete. rewrite Hq.
    by destruct Hp as [-> | ->].
  - intros dataDir c w Hq. unfold main_DELETE. rewrite Hq.
    by destruct Hp as [-> | ->].
Qed.

(** On a volume without any file. *)
Lemma protected_name_delete_forbidden_witness :
  exec (DeleteFile ctx_Background "/data" "lost+found" (Some protectedFiles))
       (with_files ∅ sample_world)
  = (Returned (None, Some ErrProtectedFile), with_files ∅ sample_world).
Proof.
  apply (protected_name_delete_forbidden "lost+found"). reflexivity.
Defined.

(** C4: for a name the guard accepts and that is not protected, once
    [WriteFile] has written the content, [ReadFile] returns exactly that
    content (and its length), and after [DeleteFile] has removed the file
    (which it then does), [ReadFile] fails with a not-found error. *)
Theorem write_read_delete_roundtrip ctx dir name content w d w1 :
  SafeFilename name = true →
  index (Some protectedFiles) name = false →
  exec (WriteFile ctx dir name content) w = (Returned (d, None), w1) →
  let p := filepath.Join dir name in
  (∃ w2,
     exec (ReadFile ctx dir name) w1
     = (Returned (Some {[ "path" := AString p; "bytes" := AInt (len content);
                          "content" := AString content ]}, None), w2)) ∧
  (∃ w3 err w4,
     exec (DeleteFile ctx dir name (Some protectedFiles)) w1
     = (Returned (Some {[ "deleted" := AString p ]}, None), w3) ∧
     exec (ReadFile ctx dir name) w3 = (Returned (None, Some err), w4) ∧
     IsNotExist err = true).
Proof.
  intros Hsafe Hfree Hwrite p.
  rewrite exec_WriteFile in Hwrite by done. fold p in Hwrite.
  destruct (handle (os_WriteFile p content) w) as [[werr|] w1'] eqn:Hw;
    cbn [fst snd] in Hwrite; [discriminate|].
  injection Hwrite as <- ->.
  apply handle_WriteFile_ok in Hw as [Hfile Hrw].
  split.
  - eexists. rewrite exec_ReadFile by done. fold p.
    cbn [handle]. by rewrite Hfile.
  - rewrite exec_DeleteFile by done. fold p.
    rewrite (handle_Remove_file _ content) by done. cbn [fst snd].
    do 3 eexists. split; [reflexivity|].
    rewrite exec_ReadFile by done. fold p.
    cbn [handle with_files tick w_files]. rewrite lookup_delete_eq.
    split; reflexivity.
Qed.

Lemma write_read_delete_roundtrip_witness :
  let w1 := (exec (WriteFile ctx_Background "/data" "report.txt" "42")
                  sample_world).2 in
  (∃ w2,
     exec (ReadFile ctx_Background "/data" "report.txt") w1
     = (Returned (Some {[ "path" := AString "/data/report.txt";
                          "bytes" := AInt 2;
                          "content" := AString "42" ]}, None), w2)) ∧
  (∃ w3 err w4,
     exec (DeleteFile ctx_Background "/data" "report.txt" (Some protectedFiles)) w1
     = (Returned (Some {[ "deleted" := AString "/data/report.txt" ]}, None), w3) ∧
     exec (ReadFile ctx_Background "/data" "report.txt") w3
     = (Returned (None, Some err), w4) ∧
     IsNotExist err = true).
Proof.
  apply (write_read_delete_roundtrip ctx_Background "/data" "report.txt" "42"
           sample_world
           (Some {[ "written" := AString "/data/report.txt"; "bytes" := AInt 2 ]}));
    reflexivity.
Defined.

(** C9: with a nil protected map, [DeleteFile] on a name the guard
    accepts goes straight to [os.Remove] of the joined path, whatever the
    name (also a protected one), and returns what the removal gives. *)
Theorem DeleteFile_nil_protected ctx dir name w :
  SafeFilename name = true →
  let p := filepath.Join dir name in
  exec (DeleteFile ctx dir name None) w
  = (match (handle (os_Remove p) w).1 with
     | Some err => Returned (None, Some err)
     | None => Returned (Some {[ "deleted" := AString p ]}, None)
     end, (handle (os_Remove p) w).2) ∧
  w_trace (exec (DeleteFile ctx dir name None) w).2
  = (w_trace w ++ [os_Remove p])%list.
Proof.
  intros Hsafe p.
  rewrite (exec_DeleteFile ctx dir name None w Hsafe eq_refl). fold p.
  split; [reflexivity|]. apply handle_trace.
Qed.

(** The protected start-up script is removed. *)
Lemma DeleteFile_nil_protected_witness :
  exec (DeleteFile ctx_Background "/data" ".first-mount.sh" None) sample_world
  = (Returned (Some {[ "deleted" := AString "/data/.first-mount.sh" ]}, None),
     with_files (delete "/data/.first-mount.sh" (w_files sample_world))
                (tick (os_Remove "/data/.first-mount.sh") sample_world)) ∧
  w_trace (exec (DeleteFile ctx_Background "/data" ".first-mount.sh" None)
                sample_world).2
  = [os_Remove "/data/.first-mount.sh"].
Proof.
  apply (DeleteFile_nil_protected ctx_Background "/data" ".first-mount.sh"
           sample_world).
  reflexivity.
Defined.

(** ** The check runner *)

Lemma Milliseconds_Sub_nonneg (t u : Time) :
  monotonic u ≤ monotonic t → 0 ≤ Milliseconds (Time_Sub t u).
Proof.
  intros Hle. unfold Milliseconds. apply Z.quot_pos; [|done].
  unfold Time_Sub, maxDuration, minDuration.
  repeat case_match; lia.
Qed.

(** The runner of main.go is the runner of the handler. *)
Lemma runCheck_run : runCheck = run.
Proof. reflexivity. Qed.

(** C5: when the probe returns [(detail, err)], the runner answers with
    one JSON envelope whose latency is not negative: on a nil error, 200
    with status "ok", the name, the latency and the detail, and no "error"
    field; on an error, 503 with status "error", the error's message under
    "error", and the detail the probe returned with it. So the status is
    "error" exactly when the probe returned an error, and the "error"
    field is there exactly when the status is "error". *)
Theorem run_envelope c name timeout fn w detail err w2 :
  let ctx := ctx_WithTimeout (Request_Context c) timeout in
  exec (fn ctx) (handle time_Now w).2 = (Returned (detail, err), w2) →
  ∃ latencyMs code obj w3,
    exec (run c name timeout fn) w = (Returned (c_JSON code obj), w3) ∧
    0 ≤ latencyMs ∧
    match err with
    | None =>
        code = 200 ∧
        obj = {[ "status" := AString "ok"; "name" := AString name;
                 "latencyMs" := AInt latencyMs;
                 "detail" := any_of_Detail detail ]}
    | Some e =>
        code = 503 ∧
        obj = {[ "status" := AString "error"; "name" := AString name;
                 "latencyMs" := AInt latencyMs;
                 "error" := AString (Error e);
                 "detail" := any_of_Detail detail ]}
    end ∧
    (obj !! "status" = Some (AString "error") ↔ err ≠ None) ∧
    (is_Some (obj !! "error") ↔ obj !! "status" = Some (AString "error")).
Proof.
  intros ctx Hfn.
  pose proof (exec_clock_mono (fn ctx) (handle time_Now w).2) as Hmono.
  rewrite Hfn in Hmono. cbn [snd] in Hmono. rewrite handle_clock in Hmono.
  set (start := (handle time_Now w).1).
  set (now := (handle time_Now w2).1).
  assert (0 ≤ Milliseconds (Time_Sub now start)) as Hlat.
  { apply Milliseconds_Sub_nonneg. subst start now. cbn. lia. }
  exists (Milliseconds (Time_Sub now start)).
  unfold run. change (exec _ w) with
    (exec ('(detail, err) ← fn ctx;
           d ← time_Since start;
           let lat := Milliseconds d in
           match err with
           | Some err =>
               Ret (c_JSON StatusServiceUnavailable
                  {[ "status" := AString "error"; "name" := AString name;
                     "latencyMs" := AInt lat; "error" := AString (Error err);
                     "detail" := any_of_Detail detail ]})
           | None =>
               Ret (c_JSON StatusOK
                  {[ "status" := AString "ok"; "name" := AString name;
                     "latencyMs" := AInt lat;
                     "detail" := any_of_Detail detail ]})
           end) (handle time_Now w).2).
  rewrite exec_bind, Hfn.
  destruct err as [e|]; do 3 eexists; (split; [reflexivity|]);
    (split; [exact Hlat|]); (split; [done|]).
  - (* the probe failed: "status" is "error" and "error" is there *)
    split; split; done.
  - (* the probe succeeded: "status" is "ok" and there is no "error" *)
    split; split; intros H.
    + discriminate H.
    + by destruct H.
    + by destruct H as [? [=]].
    + discriminate H.
Qed.

(** Deleting a file that is not there, through the runner. *)
Lemma run_envelope_witness :
  let err := PathError "remove" "/data/missing.txt" ENOENT in
  ∃ latencyMs code obj w3,
    exec (run (mkContext ctx_Background ∅) "data-delete" (1500 * Millisecond)
              (λ ctx, DeleteFile ctx "/data" "missing.txt" (Some protectedFiles)))
         sample_world
    = (Returned (c_JSON code obj), w3) ∧
    0 ≤ latencyMs ∧
    (code = 503 ∧
     obj = {[ "status" := AString "error"; "name" := AString "data-delete";
              "latencyMs" := AInt latencyMs;
              "error" := AString "remove /data/missing.txt: no such file or directory";
              "detail" := ANil ]}) ∧
    (obj !! "status" = Some (AString "error") ↔ Some err ≠ None) ∧
    (is_Some (obj !! "error") ↔ obj !! "status" = Some (AString "error")).
Proof.
  intros err.
  eapply (run_envelope (mkContext ctx_Background ∅) "data-delete"
            (1500 * Millisecond)
            (λ ctx, DeleteFile ctx "/data" "missing.txt" (Some protectedFiles))
            sample_world None (Some err)).
  reflexivity.
Defined.

(** C8, as the code has it: a DELETE whose decoded [file] value is [lost+found]
    gets 403 from both handlers, without any call. The body of
    [DataDelete] is the JSON object with the one field "error" holding
    the name in double quotes followed by
    " is protected and cannot be deleted"; the body of the handler of
    main.go is the object with the one field "error" holding
    "file is protected and cannot be deleted". *)
Theorem delete_lost_found_forbidden c w :
  Query c "file" = "lost+found" →
  (∀ Config,
     exec (DataDelete Config c) w
     = (Returned
          (c_JSON 403
             {[ "error" :=
                  AString (String strconv.double_quote "lost+found"
                           ++ String strconv.double_quote
                                " is protected and cannot be deleted") ]}), w)) ∧
  (∀ dataDir,
     exec (main_DELETE dataDir c) w
     = (Returned
          (c_JSON 403
             {[ "error" := AString "file is protected and cannot be deleted" ]}),
        w)).
Proof.
  intros Hq. split.
  - intros Config. unfold DataDelete. by rewrite Hq.
  - intros dataDir. unfold main_DELETE. by rewrite Hq.
Qed.

Lemma delete_lost_found_forbidden_witness :
  let c := mkContext ctx_Background {[ "file" := "lost+found" ]} in
  (∀ Config,
     exec (DataDelete Config c) sample_world
     = (Returned
          (c_JSON 403
             {[ "error" :=
                  AString (String strconv.double_quote "lost+found"
                           ++ String strconv.double_quote
                                " is protected and cannot be deleted") ]}),
        sample_world)) ∧
  (∀ dataDir,
     exec (main_DELETE dataDir c) sample_world
     = (Returned
          (c_JSON 403
             {[ "error" := AString "file is protected and cannot be deleted" ]}),
        sample_world)).
Proof.
  intros c.
  apply (delete_lost_found_forbidden c sample_world).
  reflexivity.
Defined.

(** C8, as the specification has it, fails on the DELETE handler of
    main.go: for the [file] value [lost+found] it answers 403 with the
    fixed message "file is protected and cannot be deleted", which is not
    the body with the quoted name. *)
Lemma main_DELETE_lost_found_body :
  let c := mkContext ctx_Background {[ "file" := "lost+found" ]} in
  exec (main_DELETE "/data" c) sample_world
  = (Returned
       (c_JSON 403
          {[ "error" := AString "file is protected and cannot be deleted" ]}),
     sample_world) ∧
  exec (main_DELETE "/data" c) sample_world
  ≠ (Returned
       (c_JSON 403
          {[ "error" :=
               AString (String strconv.double_quote "lost+found"
                        ++ String strconv.double_quote
                             " is protected and cannot be deleted") ]}),
     sample_world).
Proof.
  intros c.
  assert (exec (main_DELETE "/data" c) sample_world
          = (Returned
               (c_JSON 403
                  {[ "error" := AString "file is protected and cannot be deleted" ]}),
             sample_world)) as Hrun by reflexivity.
  split; [exact Hrun|]. rewrite Hrun. intros H.
  apply (f_equal (λ r : outcome response * world,
                    match r.1 with
                    | Returned (c_JSON _ obj) => obj !! "error"
                    | _ => None
                    end)) in H.
  vm_compute in H. discriminate H.
Qed.

(** The request line [DELETE /api/data?file=lost+found], taken byte by
    byte: the plus sign of a query string stands for a space, so the
    value the handlers see is [lost found], which is not protected; both
    go on to [os.Remove]. The protected name arrives when the request
    has [file=lost%2Bfound]. *)
Lemma lost_found_on_the_wire :
  url.QueryUnescape "lost%2Bfound" = Some "lost+found" ∧
  url.QueryUnescape "lost+found" = Some "lost found" ∧
  index (Some protectedFiles) "lost found" = false ∧
  let c := mkContext ctx_Background {[ "file" := "lost found" ]} in
  (∃ obj w',
     exec (DataDelete (mkConfig "/data") c) sample_world
     = (Returned (c_JSON 503 obj), w') ∧
     obj !! "error"
     = Some (AString "remove /data/lost found: no such file or directory") ∧
     w_trace w' = [time_Now; os_Remove "/data/lost found"; time_Now]) ∧
  (∃ w',
     exec (main_DELETE "/data" c) sample_world
     = (Returned
          (c_JSON 500
             {[ "error" :=
                  AString "remove /data/lost found: no such file or directory" ]}),
        w') ∧
     w_trace w' = [os_Remove "/data/lost found"]).
Proof.
  split; [reflexivity|]. split; [reflexivity|]. split; [reflexivity|].
  split.
  - eexists _, _. split; [reflexivity|]. split; reflexivity.
  - eexists. split; reflexivity.
Qed.

(** ** The file system self-test *)

(** C7: the self-test reads the clock and writes its file. When that
    write fails, it returns the write's error with the detail
    [{step: "write", path}], having made no other call (no open, read or
    remove) and changed no file. When the write succeeds, the file is
    opened, read, removed and closed, and the detail reports the
    directory, the file name, the bytes written and the same number of
    bytes read, [match = true] and an empty [deleteErr]; the file is gone
    afterwards. *)
Theorem FilesystemSelfTest_steps ctx dir w :
  let now := UTC_RFC3339Nano (handle time_Now w).1 in
  let name := "selftest-" ++ now ++ ".txt" in
  let p := filepath.Join dir name in
  let content := "selftest at " ++ now in
  match handle (os_WriteFile p content) (handle time_Now w).2 with
  | (Some err, w1) =>
      exec (FilesystemSelfTest ctx dir) w
      = (Returned (Some {[ "step" := AString "write"; "path" := AString p ]},
                   Some err), w1) ∧
      w_trace w1 = (w_trace w ++ [time_Now; os_WriteFile p content])%list ∧
      w_files w1 = w_files w
  | (None, _) =>
      ∃ w',
        exec (FilesystemSelfTest ctx dir) w
        = (Returned (Some {[ "dir" := AString dir;
                             "file" := AString name;
                             "writeBytes" := AInt (len content);
                             "readBytes" := AInt (len content);
                             "match" := ABool true;
                             "deleteErr" := AString "" ]}, None), w') ∧
        w_trace w' = (w_trace w ++ [time_Now; os_WriteFile p content; os_Open p;
                                    io_ReadAll (mkFile p); os_Remove p;
                                    File_Close (mkFile p)])%list ∧
        w_files w' !! p = None
  end.
Proof.
  intros now name p content.
  unfold FilesystemSelfTest. calls. rewrite exec_Call. cbv zeta.
  fold now. fold name. fold p. fold content.
  rewrite exec_Call.
  pose proof (handle_trace (os_WriteFile p content) (handle time_Now w).2) as Htr.
  rewrite (handle_trace time_Now w), <- app_assoc in Htr. cbn [app] in Htr.
  destruct (handle (os_WriteFile p content) (handle time_Now w).2)
    as [[err|] w1] eqn:Hw; cbn [fst snd] in *.
  - split; [reflexivity|]. split; [exact Htr|].
    revert Hw. cbn. repeat case_match; intros [=]; by subst.
  - apply handle_WriteFile_ok in Hw as [Hfile Hrw]. eexists.
    rewrite exec_Call, (handle_Open_found _ _ _ Hfile). cbn [fst snd].
    rewrite exec_Call, (handle_ReadAll_file _ content) by done. cbn [fst snd].
    rewrite exec_Call, (handle_Remove_file _ content) by done. cbn [fst snd].
    rewrite exec_Call. cbn [handle fst snd exec errString].
    rewrite String.eqb_refl. split; [reflexivity|].
    cbn [w_trace w_files with_files tick]. rewrite Htr, lookup_delete_eq.
    rewrite <- !app_assoc. done.
Qed.

(** The two cases on the sample volume: mounted read-only, and writable. *)
Example FilesystemSelfTest_readonly :
  let p := "/data/selftest-2024-05-17T09:30:00.000000001Z.txt" in
  ∃ w',
    exec (FilesystemSelfTest ctx_Background "/data") readonly_world
    = (Returned (Some {[ "step" := AString "write"; "path" := AString p ]},
                 Some (PathError "open" p EROFS)), w') ∧
    w_trace w' = [time_Now; os_WriteFile p "selftest at 2024-05-17T09:30:00.000000001Z"].
Proof. eexists. split; reflexivity. Qed.

Example FilesystemSelfTest_writable :
  ∃ w',
    exec (FilesystemSelfTest ctx_Background "/data") sample_world
    = (Returned (Some {[ "dir" := AString "/data";
                         "file" := AString "selftest-2024-05-17T09:30:00.000000001Z.txt";
                         "writeBytes" := AInt 42;
                         "readBytes" := AInt 42;
                         "match" := ABool true;
                         "deleteErr" := AString "" ]}, None), w') ∧
    w_files w' = w_files sample_world.
Proof. eexists. split; [reflexivity|]. vm_compute. reflexivity. Qed.

(** ** The services probe *)

(** C10: without a URL the probe succeeds: it makes no call and returns a
    nil error with the detail [{services: {}}]. *)
Theorem Services_no_urls ctx w :
  Services ctx [] = Ret (Some {[ "services" := AMap ∅ ]}, None) ∧
  exec (Services ctx []) w
  = (Returned (Some {[ "services" := AMap ∅ ]}, None), w).
Proof. split; reflexivity. Qed.

(** One round of the loop after another, when every string parses as a
    URL: the map gets the report of each answer and [allOK] survives the
    2xx answers only. *)
Lemma exec_Services_loop ctx urls :
  ∀ results allOK w,
    Forall (λ u, w_url_Parse w u = None) urls →
    (exec (Services_loop ctx urls results allOK) w).1
    = Returned (foldl (λ m u, <[u := service_report (w_net w u)]> m) results urls,
                allOK && forallb (λ u, answered_2xx (w_net w u)) urls).
Proof.
  induction urls as [|u urls IH]; intros results allOK w Hok.
  - cbn. by rewrite andb_true_r.
  - apply Forall_cons in Hok as [Hu Hrest].
    cbn [Services_loop]. unfold httpNewRequestWithContext. calls.
    rewrite exec_Call, (handle_url_Parse_ok _ _ Hu).
    cbn [fst snd bind httpClient_Do]. unfold do. cbn [bind].
    rewrite exec_Call. cbn [handle fst snd req_url tick w_net].
    set (w2 := tick _ (tick _ w)).
    assert (Forall (λ u, w_url_Parse w2 u = None) urls) as Hok2 by done.
    cbn [foldl forallb].
    destruct (w_net w u) as [code|err] eqn:Hnet; cbn [service_report answered_2xx].
    + destruct ((200 <=? code) && (code <? 300)) eqn:H2xx; rewrite (IH _ _ w2 Hok2).
      * by rewrite andb_true_l.
      * by rewrite andb_false_l, andb_false_r.
    + rewrite (IH _ _ w2 Hok2). by rewrite andb_false_l, andb_false_r.
Qed.

Lemma foldl_report_lookup (report : string → any) urls :
  ∀ (results : gmap string any) u,
    foldl (λ m u, <[u := report u]> m) results urls !! u
    = if decide (u ∈ urls) then Some (report u) else results !! u.
Proof.
  induction urls as [|v urls IH]; intros results u; cbn [foldl].
  - rewrite decide_False; [done|]. apply not_elem_of_nil.
  - rewrite IH. destruct (decide (u ∈ urls)) as [Hin|Hnin].
    + rewrite decide_True; [done|]. by apply elem_of_cons; right.
    + destruct (decide (u = v)) as [->|Hne].
      * rewrite lookup_insert_eq, decide_True; [done|]. by apply elem_of_cons; left.
      * rewrite lookup_insert_ne, decide_False; [done| |done].
        intros [?|?]%elem_of_cons; done.
Qed.

(** What C6 says, where it holds: when every string of the list parses
    as a URL, the probe returns a detail whose "services" map has an
    entry for exactly the URLs of the list, each the report of that URL's
    answer ("ok" with the code on 2xx, "degraded" with the code on another
    status, "error" with the message when the request failed), and the
    error is nil exactly when every URL answered 2xx. *)
Lemma Services_reports_every_url ctx urls w :
  Forall (λ u, w_url_Parse w u = None) urls →
  ∃ results err w',
    exec (Services ctx urls) w
    = (Returned (Some {[ "services" := AMap results ]}, err), w') ∧
    (∀ u, u ∈ urls → results !! u = Some (service_report (w_net w u))) ∧
    (∀ u, is_Some (results !! u) → u ∈ urls) ∧
    (err = None ↔ ∀ u, u ∈ urls → answered_2xx (w_net w u) = true) ∧
    (err = None ∨ err = Some (errorString "one or more services failing")).
Proof.
  intros Hok.
  pose proof (exec_Services_loop ctx urls ∅ true w Hok) as Hloop.
  unfold Services. rewrite exec_bind.
  destruct (exec (Services_loop ctx urls ∅ true) w) as [o w'].
  cbn [fst] in Hloop. subst o. cbn [andb].
  set (results := foldl _ ∅ urls).
  assert (∀ u, results !! u
               = if decide (u ∈ urls) then Some (service_report (w_net w u)) else None)
    as Hlook.
  { intros u. subst results.
    by rewrite (foldl_report_lookup (λ u, service_report (w_net w u))). }
  destruct (forallb _ urls) eqn:Hall; cbn [negb exec];
    eexists results, _, w'; (split; [reflexivity|]).
  all: split; [intros u Hu; by rewrite Hlook, decide_True|].
  all: split; [intros u [r Hr]; rewrite Hlook in Hr; by case_decide|].
  - split; [|by left]. split; [|done]. intros _ u Hu.
    rewrite forallb_forall in Hall. apply Hall. by apply list_elem_of_In.
  - split; [|by right]. split; [done|]. intros Hgood.
    assert (forallb (λ u, answered_2xx (w_net w u)) urls = true); [|congruence].
    apply forallb_forall. intros u Hu. apply Hgood. by apply list_elem_of_In.
Qed.

(** The scenario of the specification: one URL answers 200, the other
    refuses the connection. *)
Example Services_partial_failure :
  ∃ results w',
    exec (Services ctx_Background ["http://ok.example"; "http://down.example"])
         sample_world
    = (Returned (Some {[ "services" := AMap results ]},
                 Some (errorString "one or more services failing")), w') ∧
    results !! "http://ok.example"
    = Some (AMap {[ "status" := AString "ok"; "code" := AInt 200 ]}) ∧
    results !! "http://down.example"
    = Some (AMap {[ "status" := AString "error";
                    "error" := AString "dial tcp: connect: connection refused" ]}).
Proof. do 2 eexists. split; [vm_compute; reflexivity|]. split; reflexivity. Qed.

(** A string that [url.Parse] refuses leaves [req] nil (the error of
    [httpNewRequestWithContext] is dropped), and [client.Do] panics on
    it: the probe returns nothing, whatever the other URLs. *)
Lemma Services_unparsable_url_panics ctx u urls w perr :
  w_url_Parse w u = Some perr →
  ∃ w',
    exec (Services ctx (u :: urls)) w
    = (Panicked "runtime error: invalid memory address or nil pointer dereference", w') ∧
    w_trace w' = (w_trace w ++ [url_Parse u])%list.
Proof.
  intros Hbad. eexists. unfold Services. rewrite exec_bind.
  cbn [Services_loop]. unfold httpNewRequestWithContext. calls.
  rewrite exec_Call. cbn [handle fst snd]. rewrite Hbad.
  split; reflexivity.
Qed.

(** C6 fails on the code: with the host-and-port string ["10.0.0.5:8080"]
    in the list (no scheme: [url.Parse] refuses it), the probe panics
    after the first URL was probed, and no detail comes back, neither for
    the URL that answered 200 nor for the other. *)
Theorem Services_panics_on_host_port :
  ∃ w',
    exec (Services ctx_Background ["http://ok.example"; "10.0.0.5:8080"])
         sample_world
    = (Panicked "runtime error: invalid memory address or nil pointer dereference", w') ∧
    w_trace w'
    = [url_Parse "http://ok.example";
       http_Client_Do (mkRequest ctx_Background "GET" "http://ok.example");
       url_Parse "10.0.0.5:8080"].
Proof. eexists. split; [vm_compute; reflexivity|reflexivity]. Qed.

(** * More properties

    Of the rest of monitor.go, of the monitoring handler, of main.go and
    of the SPA mount. *)

(** ** Names without a separator *)

Lemma strip_trailing_plain s :
  filepath.has_separator s = false → filepath.strip_trailing_separators s = s.
Proof.
  induction s as [|c s IH]; [reflexivity|].
  cbn [filepath.has_separator filepath.strip_trailing_separators].
  intros [Hc Hs]%orb_false_elim. rewrite (IH Hs), Hc. by destruct s.
Qed.

Lemma after_last_plain s :
  filepath.has_separator s = false → filepath.after_last_separator s = s.
Proof.
  destruct s as [|c s]; [reflexivity|].
  cbn [filepath.has_separator filepath.after_last_separator].
  intros [Hc Hs]%orb_false_elim. by rewrite Hs, Hc.
Qed.

Lemma Base_plain s :
  filepath.has_separator s = false → s ≠ "" → filepath.Base s = s.
Proof.
  intros Hs Hne. unfold filepath.Base.
  rewrite (strip_trailing_plain _ Hs), (after_last_plain _ Hs).
  by destruct s.
Qed.

Lemma eqb_false_ne (s t : string) : String.eqb s t = false ↔ s ≠ t.
Proof. apply String.eqb_neq. Qed.

(** A name that is accepted and is not the root has no separator. *)
Lemma SafeFilename_plain name :
  SafeFilename name = true → name ≠ "/" →
  filepath.has_separator name = false ∧ name ≠ "" ∧ name ≠ "." ∧ name ≠ "..".
Proof.
  intros Hsafe Hroot. split.
  - destruct (filepath.has_separator name) eqn:Hs; [|reflexivity].
    destruct Hroot. by apply SafeFilename_separator.
  - unfold SafeFilename in Hsafe.
    repeat split; intros ->; discriminate Hsafe.
Qed.

(** X1: the guard accepts a name exactly when the name is not empty, not
    ["."], not [".."], and either holds no separator or is the lone
    ["/"]. *)
Theorem SafeFilename_iff name :
  SafeFilename name = true ↔
  name ≠ "" ∧ name ≠ "." ∧ name ≠ ".." ∧
  (strings.Contains name "/" = false ∨ name = "/").
Proof.
  rewrite Contains_separator. split.
  - intros Hsafe. destruct (decide (name = "/")) as [->|Hroot].
    + repeat split; try discriminate. by right.
    + destruct (SafeFilename_plain _ Hsafe Hroot) as (Hs & ? & ? & ?).
      repeat split; try done. by left.
  - intros (Hne & Hdot & Hdots & [Hs| ->]); [|reflexivity].
    unfold SafeFilename.
    apply String.eqb_neq in Hne, Hdot, Hdots. rewrite Hne, Hdot, Hdots.
    cbn [orb]. apply String.eqb_eq, Base_plain; [done|].
    by apply String.eqb_neq.
Qed.

(** ** Where a name lands *)

Lemma split_nonempty s : filepath.split s ≠ [].
Proof.
  destruct s as [|c s]; [done|]. cbn [filepath.split].
  destruct (filepath.IsPathSeparator c); [done|].
  by destruct (filepath.split s).
Qed.

Lemma split_append a b :
  filepath.split (a ++ String "/" b) = (filepath.split a ++ filepath.split b)%list.
Proof.
  induction a as [|c a IH]; [reflexivity|].
  change (String c a ++ String "/" b) with (String c (a ++ String "/" b)).
  cbn [filepath.split]. rewrite IH.
  destruct (filepath.IsPathSeparator c); [reflexivity|].
  pose proof (split_nonempty a). by destruct (filepath.split a).
Qed.

Lemma split_plain_elements s :
  Forall (λ e, filepath.has_separator e = false) (filepath.split s).
Proof.
  induction s as [|c s IH]; [by repeat constructor|].
  cbn [filepath.split].
  destruct (filepath.IsPathSeparator c) eqn:Hc; [by constructor|].
  destruct (filepath.split s) as [|e es]; [by repeat constructor; cbn; rewrite Hc|].
  apply Forall_cons in IH as [He Hes]. constructor; [|done].
  cbn [filepath.has_separator]. by rewrite Hc, He.
Qed.

(** The elements [Clean] keeps: not empty, not ["."], without separator. *)
Lemma clean_step_kept rooted out elem :
  filepath.has_separator elem = false →
  Forall (λ e, e ≠ "" ∧ e ≠ "." ∧ filepath.has_separator e = false) out →
  Forall (λ e, e ≠ "" ∧ e ≠ "." ∧ filepath.has_separator e = false)
         (filepath.clean_step rooted out elem).
Proof.
  intros Helem Hout. unfold filepath.clean_step.
  destruct (String.eqb elem "") eqn:He; [done|].
  destruct (String.eqb elem ".") eqn:Hd; [done|]. cbn [orb].
  apply String.eqb_neq in He, Hd.
  destruct (String.eqb elem "..").
  - destruct out as [|top below]; [destruct rooted; by repeat constructor|].
    destruct (String.eqb top "..").
    + destruct rooted; [done|]. by constructor.
    + by apply Forall_cons in Hout as [_ ?].
  - by constructor.
Qed.

Lemma clean_fold_kept rooted elems :
  ∀ out,
    Forall (λ e, filepath.has_separator e = false) elems →
    Forall (λ e, e ≠ "" ∧ e ≠ "." ∧ filepath.has_separator e = false) out →
    Forall (λ e, e ≠ "" ∧ e ≠ "." ∧ filepath.has_separator e = false)
           (fold_left (filepath.clean_step rooted) elems out).
Proof.
  induction elems as [|e elems IH]; intros out Helems Hout; [done|].
  apply Forall_cons in Helems as [He Helems]. cbn [fold_left].
  apply IH; [done|]. by apply clean_step_kept.
Qed.

Lemma append_assoc (a b c : string) : (a ++ b) ++ c = a ++ b ++ c.
Proof.
  induction a as [|d a IH]; [reflexivity|].
  change (String d ((a ++ b) ++ c) = String d (a ++ b ++ c)). by rewrite IH.
Qed.

Lemma Join_snoc elems x :
  strings.Join (elems ++ [x]) "/"
  = match elems with
    | [] => x
    | _ => strings.Join elems "/" ++ "/" ++ x
    end.
Proof.
  induction elems as [|e elems IH]; [reflexivity|].
  change (strings.Join ((e :: elems) ++ [x]) "/")
    with (match (elems ++ [x])%list with
          | [] => e
          | _ => e ++ "/" ++ strings.Join (elems ++ [x]) "/"
          end).
  destruct elems as [|e' elems]; [reflexivity|].
  rewrite IH. cbn [app].
  change (strings.Join (e :: e' :: elems) "/")
    with (e ++ "/" ++ strings.Join (e' :: elems) "/").
  by rewrite !append_assoc.
Qed.

Lemma Join_kept_nonempty e elems :
  e ≠ "" → strings.Join (e :: elems) "/" ≠ "".
Proof.
  intros He. destruct elems; [done|].
  change (strings.Join (e :: s :: elems) "/")
    with (e ++ "/" ++ strings.Join (s :: elems) "/").
  by destruct e.
Qed.

(** A relative cleaned path of kept elements is neither ["."] nor ["/"]. *)
Lemma Join_kept_relative e elems :
  e ≠ "" → e ≠ "." → filepath.has_separator e = false →
  strings.Join (e :: elems) "/" ≠ "." ∧ strings.Join (e :: elems) "/" ≠ "/".
Proof.
  intros He Hd Hs. destruct elems as [|e' elems].
  - cbn [strings.Join]. split; [done|]. intros ->. discriminate Hs.
  - change (strings.Join (e :: e' :: elems) "/")
      with (e ++ "/" ++ strings.Join (e' :: elems) "/").
    destruct e as [|c e]; [done|]. cbn [filepath.has_separator] in Hs.
    apply orb_false_elim in Hs as [Hc Hs].
    split.
    + intros [= -> H]. by destruct e.
    + intros [= -> H]. discriminate Hc.
Qed.

(** Joining a directory and a plain name: the name directly inside the
    cleaned directory. *)
Lemma Join_plain dir name :
  dir ≠ "" →
  filepath.has_separator name = false → name ≠ "" → name ≠ "." → name ≠ ".." →
  filepath.Join dir name = child_path (filepath.Clean dir) name.
Proof.
  intros Hdir Hs Hne Hdot Hdots.
  destruct dir as [|c d]; [done|].
  unfold filepath.Join. cbn [String.eqb negb].
  change (String c d ++ "/" ++ name) with (String c (d ++ String "/" name)).
  unfold filepath.Clean.
  change (String c (d ++ String "/" name)) with (String c d ++ String "/" name).
  rewrite split_append, (split_plain _ Hs), fold_left_app.
  cbn [fold_left].
  pose proof (clean_fold_kept (filepath.IsPathSeparator c)
                (filepath.split (String c d)) []
                (split_plain_elements _) (Forall_nil_2 _)) as Hkept.
  set (stack := fold_left _ (filepath.split (String c d)) []) in *.
  assert (filepath.clean_step (filepath.IsPathSeparator c) stack name
          = name :: stack) as ->.
  { unfold filepath.clean_step.
    apply String.eqb_neq in Hne, Hdot, Hdots. by rewrite Hne, Hdot, Hdots. }
  cbn [rev]. apply Forall_rev in Hkept.
  destruct (rev stack) as [|e out] eqn:Hout.
  - cbn [app]. by destruct (filepath.IsPathSeparator c).
  - apply Forall_cons in Hkept as [(He & Hd & Hse) _].
    rewrite Join_snoc. cbn [app].
    destruct (filepath.IsPathSeparator c).
    + unfold child_path.
      pose proof (Join_kept_nonempty e out He) as Hj.
      destruct (strings.Join (e :: out) "/") as [|j js] eqn:HJ; [done|].
      cbn [String.append String.eqb Ascii.eqb Bool.eqb]. 
      by rewrite append_assoc.
    + destruct (Join_kept_relative e out He Hd Hse) as [Hnd Hnr].
      unfold child_path.
      apply String.eqb_neq in Hnd, Hnr. by rewrite Hnd, Hnr.
Qed.

Lemma length_append (a b : string) :
  String.length (a ++ b) = (String.length a + String.length b)%nat.
Proof.
  induction a as [|c a IH]; [reflexivity|].
  change (String c a ++ b) with (String c (a ++ b)). cbn [String.length].
  by rewrite IH.
Qed.

Lemma strip_trailing_append s name :
  filepath.has_separator name = false → name ≠ "" →
  filepath.strip_trailing_separators (s ++ name) = s ++ name.
Proof.
  intros Hs Hne. induction s as [|c s IH]; [by apply strip_trailing_plain|].
  change (String c s ++ name) with (String c (s ++ name)).
  cbn [filepath.strip_trailing_separators]. rewrite IH.
  destruct (s ++ name) eqn:Happ; [|reflexivity].
  destruct s; [done|discriminate Happ].
Qed.

Lemma has_separator_append a b :
  filepath.has_separator (a ++ b)
  = filepath.has_separator a || filepath.has_separator b.
Proof.
  induction a as [|c a IH]; [reflexivity|].
  change (String c a ++ b) with (String c (a ++ b)).
  cbn [filepath.has_separator]. by rewrite IH, orb_assoc.
Qed.

Lemma after_last_append s name :
  filepath.has_separator name = false →
  filepath.after_last_separator (s ++ String "/" name) = name.
Proof.
  intros Hs. induction s as [|c s IH].
  - change ("" ++ String "/" name) with (String "/" name).
    cbn [filepath.after_last_separator]. by rewrite Hs.
  - change (String c s ++ String "/" name) with (String c (s ++ String "/" name)).
    cbn [filepath.after_last_separator].
    rewrite has_separator_append. cbn [filepath.has_separator].
    change (filepath.IsPathSeparator "/") with true.
    by rewrite orb_true_r.
Qed.

(** The last element of a path that ends in a separator and a plain
    name is that name. *)
Lemma Base_append s name :
  filepath.has_separator name = false → name ≠ "" →
  filepath.Base (s ++ String "/" name) = name.
Proof.
  intros Hs Hne. unfold filepath.Base.
  replace (String.eqb (s ++ String "/" name) "") with false by by destruct s.
  change (s ++ String "/" name) with (s ++ "/" ++ name).
  rewrite <- append_assoc, (strip_trailing_append _ _ Hs Hne), append_assoc.
  change (s ++ "/" ++ name) with (s ++ String "/" name).
  rewrite (after_last_append _ _ Hs).
  apply String.eqb_neq in Hne. by rewrite Hne.
Qed.

Lemma Base_child_path d name :
  filepath.has_separator name = false → name ≠ "" →
  filepath.Base (child_path d name) = name.
Proof.
  intros Hs Hne. unfold child_path.
  destruct (String.eqb d "/"); [apply (Base_append "" _ Hs Hne)|].
  destruct (String.eqb d "."); [by apply Base_plain|].
  by apply Base_append.
Qed.

Lemma child_path_differs d name :
  name ≠ "" → name ≠ "." → child_path d name ≠ d.
Proof.
  intros Hne Hdot. unfold child_path.
  destruct (String.eqb_spec d "/") as [->|_].
  { intros [=]. done. }
  destruct (String.eqb_spec d ".") as [->|_]; [done|].
  intros Heq. apply (f_equal String.length) in Heq.
  rewrite !length_append in Heq. cbn in Heq. lia.
Qed.

(** Without a directory the name is the path. *)
Lemma Join_no_dir name :
  filepath.has_separator name = false → name ≠ "" → name ≠ "." → name ≠ ".." →
  filepath.Join "" name = name.
Proof.
  intros Hs Hne Hdot Hdots. unfold filepath.Join. cbn [String.eqb negb].
  apply String.eqb_neq in Hne as Hne'. rewrite Hne'. cbn [negb].
  destruct name as [|c n]; [done|]. unfold filepath.Clean.
  rewrite (split_plain _ Hs). cbn [fold_left].
  cbn [filepath.has_separator] in Hs. apply orb_false_elim in Hs as [-> _].
  unfold filepath.clean_step.
  apply String.eqb_neq in Hdot, Hdots. by rewrite Hne', Hdot, Hdots.
Qed.

(** The root as a name: the directory itself. *)
Lemma Join_root dir :
  dir ≠ "" → filepath.Join dir "/" = filepath.Clean dir.
Proof.
  intros Hdir. destruct dir as [|c d]; [done|].
  unfold filepath.Join. cbn [String.eqb negb].
  change (String c d ++ "/" ++ "/") with (String c (d ++ String "/" "/")).
  unfold filepath.Clean.
  change (String c (d ++ String "/" "/")) with (String c d ++ String "/" "/").
  by rewrite split_append, fold_left_app.
Qed.

(** X2: an accepted name other than ["/"] is joined to a path directly
    inside the cleaned directory (the name itself when the directory is
    empty), and the last element of that path is the name: no such name
    leaves the directory. *)
Theorem Join_safe_name dir name :
  SafeFilename name = true → name ≠ "/" →
  filepath.Join dir name
  = (if String.eqb dir "" then name
     else child_path (filepath.Clean dir) name) ∧
  filepath.Base (filepath.Join dir name) = name.
Proof.
  intros Hsafe Hroot.
  destruct (SafeFilename_plain _ Hsafe Hroot) as (Hs & Hne & Hdot & Hdots).
  destruct (String.eqb_spec dir "") as [->|Hdir].
  - rewrite Join_no_dir by done. split; [done|]. by apply Base_plain.
  - rewrite Join_plain by done. split; [done|]. by apply Base_child_path.
Qed.

Lemma Join_safe_name_witness :
  filepath.Join "./data" "report.txt"
  = (if String.eqb "./data" "" then "report.txt"
     else child_path (filepath.Clean "./data") "report.txt") ∧
  filepath.Base (filepath.Join "./data" "report.txt") = "report.txt".
Proof. apply (Join_safe_name "./data" "report.txt"); [reflexivity|discriminate]. Defined.

(** ** What a program may write *)

Lemma writes_only_bind {A B} allowed (p : prog A) (f : A → prog B) :
  writes_only allowed p → (∀ a, writes_only allowed (f a)) →
  writes_only allowed (p ≫= f).
Proof.
  intros Hp Hf. induction p as [a|msg|c k IH]; [apply Hf|done|].
  destruct Hp as [Hc Hk]. split; [exact Hc|].
  intros r. apply IH, Hk.
Qed.

Lemma writes_only_do allowed c :
  match c with
  | os_WriteFile path _ => allowed path
  | os_Remove path => allowed path
  | _ => True
  end →
  writes_only allowed (do c).
Proof. intros Hc. split; [exact Hc|done]. Qed.

(** A call leaves alone every path it does not write or remove. *)
Lemma handle_files_other c w q :
  match c with
  | os_WriteFile path _ => path ≠ q
  | os_Remove path => path ≠ q
  | _ => True
  end →
  w_files (handle c w).2 !! q = w_files w !! q.
Proof.
  destruct c; cbn; intros Hc; repeat case_match; cbn;
    rewrite ?lookup_insert_ne, ?lookup_delete_ne by done; reflexivity.
Qed.

Lemma exec_writes_only {A} allowed (p : prog A) w q :
  writes_only allowed p → ¬ allowed q →
  w_files (exec p w).2 !! q = w_files w !! q.
Proof.
  intros Hp Hq. revert w.
  induction p as [a|msg|c k IH]; intros w; [done..|].
  destruct Hp as [Hc Hk]. rewrite exec_Call, IH by apply Hk.
  apply handle_files_other. destruct c; try done; by intros ->.
Qed.

Lemma writes_only_ReadFile ctx dir name :
  writes_only (λ _, False) (ReadFile ctx dir name).
Proof.
  unfold ReadFile. destruct (negb _); [done|].
  apply writes_only_bind; [by apply writes_only_do|]. by intros [].
Qed.

Lemma writes_only_WriteFile ctx dir name content :
  writes_only (λ q, q = filepath.Join dir name ∧ SafeFilename name = true)
              (WriteFile ctx dir name content).
Proof.
  unfold WriteFile. destruct (SafeFilename name); [|done]. cbn [negb].
  apply writes_only_bind; [by apply writes_only_do|]. by intros [].
Qed.

Lemma writes_only_DeleteFile ctx dir name protected :
  writes_only (λ q, q = filepath.Join dir name ∧ SafeFilename name = true ∧
                    index protected name = false)
              (DeleteFile ctx dir name protected).
Proof.
  unfold DeleteFile. destruct (SafeFilename name); [|done]. cbn [negb].
  destruct protected as [m|]; cbn [not_nil andb].
  - destruct (index (Some m) name) eqn:Hi; [done|].
    apply writes_only_bind; [by apply writes_only_do|]. by intros [].
  - apply writes_only_bind; [by apply writes_only_do|]. by intros [].
Qed.

Lemma writes_only_run allowed c name timeout fn :
  (∀ ctx, writes_only allowed (fn ctx)) →
  writes_only allowed (run c name timeout fn).
Proof.
  intros Hfn. unfold run.
  apply writes_only_bind; [by apply writes_only_do|]. intros start.
  apply writes_only_bind; [apply Hfn|]. intros [detail err].
  apply writes_only_bind; [|by intros d; destruct err].
  unfold time_Since. apply writes_only_bind; [by apply writes_only_do|done].
Qed.

(** The runner, run: the probe between two readings of the clock. *)
Lemma exec_run c name timeout fn w :
  exec (run c name timeout fn) w =
  match exec (fn (ctx_WithTimeout (Request_Context c) timeout))
             (handle time_Now w).2 with
  | (Returned (detail, err), w2) =>
      (Returned (envelope name
                   (Milliseconds (Time_Sub (handle time_Now w2).1
                                           (handle time_Now w).1))
                   detail err),
       (handle time_Now w2).2)
  | (Panicked msg, w2) => (Panicked msg, w2)
  end.
Proof.
  unfold run.
  change (exec _ w) with
    (exec ('(detail, err) ← fn (ctx_WithTimeout (Request_Context c) timeout);
           d ← time_Since (handle time_Now w).1;
           let lat := Milliseconds d in
           match err with
           | Some err =>
               Ret (c_JSON StatusServiceUnavailable
                  {[ "status" := AString "error"; "name" := AString name;
                     "latencyMs" := AInt lat; "error" := AString (Error err);
                     "detail" := any_of_Detail detail ]})
           | None =>
               Ret (c_JSON StatusOK
                  {[ "status" := AString "ok"; "name" := AString name;
                     "latencyMs" := AInt lat;
                     "detail" := any_of_Detail detail ]})
           end) (handle time_Now w).2).
  rewrite exec_bind.
  destruct (exec (fn _) _) as [[[detail err]|msg] w2]; [|reflexivity].
  by destruct err.
Qed.

(** ** The file store: one path at a time *)

(** X4: [ReadFile], [WriteFile] and [DeleteFile] leave every path other
    than the joined one as it was. *)
Theorem store_leaves_other_paths ctx dir name content protected w q :
  q ≠ filepath.Join dir name →
  w_files (exec (ReadFile ctx dir name) w).2 !! q = w_files w !! q ∧
  w_files (exec (WriteFile ctx dir name content) w).2 !! q = w_files w !! q ∧
  w_files (exec (DeleteFile ctx dir name protected) w).2 !! q = w_files w !! q.
Proof.
  intros Hq. split; [|split].
  - eapply exec_writes_only; [apply writes_only_ReadFile|]. by intros [].
  - eapply exec_writes_only; [apply writes_only_WriteFile|]. by intros [? _].
  - eapply exec_writes_only; [apply writes_only_DeleteFile|]. by intros [? _].
Qed.

Lemma store_leaves_other_paths_witness :
  let w := sample_world in
  let q := "/data/notes.txt" in
  w_files (exec (ReadFile ctx_Background "/data" "report.txt") w).2 !! q
    = w_files w !! q ∧
  w_files (exec (WriteFile ctx_Background "/data" "report.txt" "42") w).2 !! q
    = w_files w !! q ∧
  w_files (exec (DeleteFile ctx_Background "/data" "report.txt" None) w).2 !! q
    = w_files w !! q.
Proof.
  apply (store_leaves_other_paths ctx_Background "/data" "report.txt" "42" None
           sample_world "/data/notes.txt").
  discriminate.
Defined.

(** The protected names are plain names. *)
Lemma protected_plain n :
  protectedFiles !! n = Some true →
  SafeFilename n = true ∧ n ≠ "/" ∧ index (Some protectedFiles) n = true.
Proof. intros [-> | ->]%protectedFiles_lookup; by repeat split. Qed.

(** Two accepted names with the same path in a directory are one name,
    when one of them is plain. *)
Lemma Join_same_path dir n name :
  SafeFilename n = true → n ≠ "/" → SafeFilename name = true →
  filepath.Join dir name = filepath.Join dir n → name = n.
Proof.
  intros Hn Hnroot Hname Hsame.
  destruct (SafeFilename_plain _ Hn Hnroot) as (Hs & Hne & Hdot & Hdots).
  destruct (decide (name = "/")) as [->|Hroot].
  - exfalso. destruct (String.eqb_spec dir "") as [->|Hdir].
    + rewrite (Join_no_dir n) in Hsame by done. by destruct Hnroot.
    + rewrite Join_root, (Join_plain dir n) in Hsame by done.
      by apply (child_path_differs (filepath.Clean dir) n).
  - destruct (SafeFilename_plain _ Hname Hroot) as (Hs' & Hne' & Hdot' & Hdots').
    destruct (String.eqb_spec dir "") as [->|Hdir].
    + by rewrite !Join_no_dir in Hsame by done.
    + rewrite !Join_plain in Hsame by done.
      apply (f_equal filepath.Base) in Hsame.
      by rewrite !Base_child_path in Hsame by done.
Qed.

Lemma writes_only_mono {A} (allowed allowed' : string → Prop) (p : prog A) :
  (∀ q, allowed q → allowed' q) →
  writes_only allowed p → writes_only allowed' p.
Proof.
  intros Himp. induction p as [a|msg|c k IH]; [done..|].
  intros [Hc Hk]. split; [|intros r; apply IH, Hk].
  destruct c; try done; by apply Himp.
Qed.

(** ** The delete endpoint *)

Lemma index_protectedFiles name :
  index (Some protectedFiles) name = true → protectedFiles !! name = Some true.
Proof.
  cbn [index]. destruct (protectedFiles !! name) as [[]|] eqn:H; done.
Qed.

(** A name the guard rejects is no protected name. *)
Lemma unsafe_not_protected name :
  SafeFilename name = false → index (Some protectedFiles) name = false.
Proof.
  intros Hunsafe. destruct (index (Some protectedFiles) name) eqn:Hi; [|done].
  apply index_protectedFiles, protected_plain in Hi as [Hsafe _]. congruence.
Qed.

Lemma writes_only_DataDelete Config c :
  writes_only (λ q, ∃ name, q = filepath.Join (AppDataDir Config) name ∧
                            SafeFilename name = true ∧
                            index (Some protectedFiles) name = false)
              (DataDelete Config c).
Proof.
  unfold DataDelete. destruct (String.eqb _ ""); [done|].
  destruct (index _ _); [done|].
  apply writes_only_run. intros ctx.
  eapply writes_only_mono; [|apply writes_only_DeleteFile].
  intros q H. eexists. exact H.
Qed.

Lemma writes_only_main_DELETE dataDir c :
  writes_only (λ q, ∃ name, q = filepath.Join dataDir name ∧
                            SafeFilename name = true ∧
                            index (Some protectedFiles) name = false)
              (main_DELETE dataDir c).
Proof.
  unfold main_DELETE. rewrite safeFilename_SafeFilename.
  destruct (String.eqb _ ""); [done|]. cbn [orb].
  destruct (SafeFilename _) eqn:Hsafe; [|done]. cbn [negb].
  destruct (index _ _) eqn:Hfree; [done|].
  apply writes_only_bind; [|by intros []].
  apply writes_only_do. eexists. by repeat split.
Qed.

(** X5: whatever the request and the environment, the entry of a
    protected name in the data directory is, after the [DataDelete]
    handler or the DELETE handler of main.go ran, what it was before. *)
Theorem delete_endpoints_spare_protected name :
  protectedFiles !! name = Some true →
  (∀ Config c w,
     let p := filepath.Join (AppDataDir Config) name in
     w_files (exec (DataDelete Config c) w).2 !! p = w_files w !! p) ∧
  (∀ dataDir c w,
     let p := filepath.Join dataDir name in
     w_files (exec (main_DELETE dataDir c) w).2 !! p = w_files w !! p).
Proof.
  intros (Hsafe & Hroot & Hprot)%protected_plain.
  split; intros dir c w p.
  - eapply exec_writes_only; [apply writes_only_DataDelete|].
    intros (name' & Hsame & Hsafe' & Hfree).
    rewrite (Join_same_path _ name name') in Hfree by done. congruence.
  - eapply exec_writes_only; [apply writes_only_main_DELETE|].
    intros (name' & Hsame & Hsafe' & Hfree).
    rewrite (Join_same_path _ name name') in Hfree by done. congruence.
Qed.

Lemma delete_endpoints_spare_protected_witness :
  let c := mkContext ctx_Background {[ "file" := "notes.txt" ]} in
  let p := "/data/lost+found" in
  w_files (exec (DataDelete (mkConfig "/data") c) sample_world).2 !! p
  = w_files sample_world !! p.
Proof.
  intros c p.
  apply (delete_endpoints_spare_protected "lost+found" eq_refl).
Defined.

(** X6: a delete request whose trimmed name is not empty and fails the
    guard goes through the runner: the answer is 503 (not 400) with the
    error "invalid filename" and a nil detail, after two readings of the
    clock and no other call. *)
Theorem DataDelete_unsafe_name Config c w :
  let name := strings.TrimSpace (Query c "file") in
  name ≠ "" → SafeFilename name = false →
  let w1 := (handle time_Now w).2 in
  exec (DataDelete Config c) w
  = (Returned
       (c_JSON 503
          {[ "status" := AString "error";
             "name" := AString "data-delete";
             "latencyMs" := AInt (Milliseconds
                                    (Time_Sub (handle time_Now w1).1
                                              (handle time_Now w).1));
             "error" := AString "invalid filename";
             "detail" := ANil ]}),
     (handle time_Now w1).2).
Proof.
  intros name Hne Hunsafe w1. unfold DataDelete. fold name.
  apply String.eqb_neq in Hne. rewrite Hne, (unsafe_not_protected _ Hunsafe).
  rewrite exec_run. unfold DeleteFile. by rewrite Hunsafe.
Qed.

Lemma DataDelete_unsafe_name_witness :
  let c := mkContext ctx_Background {[ "file" := "../etc/passwd" ]} in
  let w := sample_world in
  let w1 := (handle time_Now w).2 in
  exec (DataDelete (mkConfig "/data") c) w
  = (Returned
       (c_JSON 503
          {[ "status" := AString "error";
             "name" := AString "data-delete";
             "latencyMs" := AInt (Milliseconds
                                    (Time_Sub (handle time_Now w1).1
                                              (handle time_Now w).1));
             "error" := AString "invalid filename";
             "detail" := ANil ]}),
     (handle time_Now w1).2).
Proof.
  intros c w w1.
  apply (DataDelete_unsafe_name (mkConfig "/data") c sample_world);
    [discriminate|reflexivity].
Defined.

Lemma DataDelete_runs Config c w :
  let name := strings.TrimSpace (Query c "file") in
  SafeFilename name = true → index (Some protectedFiles) name = false →
  exec (DataDelete Config c) w
  = exec (run c "data-delete" (1500 * Millisecond)
            (λ ctx, DeleteFile ctx (AppDataDir Config) name (Some protectedFiles)))
         w.
Proof.
  intros name Hsafe Hfree. unfold DataDelete. fold name.
  assert (String.eqb name "" = false) as ->.
  { apply String.eqb_neq. intros Hn. rewrite Hn in Hsafe. discriminate. }
  by rewrite Hfree.
Qed.



(** X8: a delete request for an accepted, unprotected name that is a
    regular file on a writable volume is answered 200 with the detail
    [{deleted: path}], and the file system afterwards is the one before
    without that path. *)
Theorem DataDelete_removes_file Config c w data :
  let name := strings.TrimSpace (Query c "file") in
  let p := filepath.Join (AppDataDir Config) name in
  SafeFilename name = true → index (Some protectedFiles) name = false →
  w_files w !! p = Some (RegularFile data) → w_readonly w = false →
  let w2 := with_files (delete p (w_files w))
                       (tick (os_Remove p) (handle time_Now w).2) in
  exec (DataDelete Config c) w
  = (Returned
       (c_JSON 200
          {[ "status" := AString "ok";
             "name" := AString "data-delete";
             "latencyMs" := AInt (Milliseconds
                                    (Time_Sub (handle time_Now w2).1
                                              (handle time_Now w).1));
             "detail" := AMap {[ "deleted" := AString p ]} ]}),
     (handle time_Now w2).2) ∧
  w_files (exec (DataDelete Config c) w).2 = delete p (w_files w).
Proof.
  intros name p Hsafe Hfree Hfile Hrw w2.
  rewrite DataDelete_runs, exec_run, exec_DeleteFile by done. fold name p.
  rewrite (handle_Remove_file p data) by done. by split.
Qed.

Lemma DataDelete_removes_file_witness :
  let c := mkContext ctx_Background {[ "file" := "notes.txt" ]} in
  let w := sample_world in
  let p := "/data/notes.txt" in
  let w2 := with_files (delete p (w_files w))
                       (tick (os_Remove p) (handle time_Now w).2) in
  exec (DataDelete (mkConfig "/data") c) w
  = (Returned
       (c_JSON 200
          {[ "status" := AString "ok";
             "name" := AString "data-delete";
             "latencyMs" := AInt (Milliseconds
                                    (Time_Sub (handle time_Now w2).1
                                              (handle time_Now w).1));
             "detail" := AMap {[ "deleted" := AString p ]} ]}),
     (handle time_Now w2).2) ∧
  w_files (exec (DataDelete (mkConfig "/data") c) w).2 = delete p (w_files w).
Proof.
  intros c w p w2.
  apply (DataDelete_removes_file (mkConfig "/data") c sample_world "hello");
    reflexivity.
Defined.

(** ** The read endpoint *)

(** X9: what [WriteFile] has stored under a name, the read endpoint
    gives back: after a write that returned no error, a read request
    whose trimmed [file] value is that name is answered 200 with exactly
    the content, as text/plain. *)
Theorem WriteFile_then_DataReadText ctx Config c content w d w1 :
  let name := strings.TrimSpace (Query c "file") in
  exec (WriteFile ctx (AppDataDir Config) name content) w
  = (Returned (d, None), w1) →
  (exec (DataReadText Config c) w1).1
  = Returned (c_Data 200 "text/plain; charset=utf-8" content).
Proof.
  intros name Hwrite.
  destruct (SafeFilename name) eqn:Hsafe;
    [|unfold WriteFile in Hwrite; by rewrite Hsafe in Hwrite].
  rewrite exec_WriteFile in Hwrite by done.
  destruct (handle (os_WriteFile (filepath.Join (AppDataDir Config) name) content) w)
    as [[werr|] w'] eqn:Hcall; cbn [fst snd] in Hwrite; [discriminate|].
  injection Hwrite as _ <-.
  apply handle_WriteFile_ok in Hcall as [Hfile _].
  unfold DataReadText. fold name.
  assert (String.eqb name "" = false) as ->.
  { apply String.eqb_neq. intros Hn. rewrite Hn in Hsafe. discriminate. }
  rewrite exec_bind, exec_ReadFile by done. cbn [handle].
  by rewrite Hfile.
Qed.

Lemma WriteFile_then_DataReadText_witness :
  let c := mkContext ctx_Background {[ "file" := "  report.txt " ]} in
  (exec (DataReadText (mkConfig "/data") c)
        (exec (WriteFile ctx_Background "/data" "report.txt" "42") sample_world).2).1
  = Returned (c_Data 200 "text/plain; charset=utf-8" "42").
Proof.
  intros c.
  eapply (WriteFile_then_DataReadText ctx_Background (mkConfig "/data") c "42"
            sample_world).
  reflexivity.
Defined.

(** ** main.go: read, write, self-test, the legacy check *)

Lemma exec_main_read dataDir c w :
  let name := Query c "file" in
  let p := filepath.Join dataDir name in
  exec (main_read dataDir c) w =
  if String.eqb name "" || negb (SafeFilename name) then
    (Returned (c_JSON 400
                 {[ "error" := AString "missing or invalid file query param" ]}), w)
  else
    (match w_files w !! p with
     | Some (RegularFile data) =>
         Returned (c_Data 200 "text/plain; charset=utf-8" data)
     | Some Directory =>
         Returned (c_JSON 500
                     {[ "error" := AString ("read " ++ p ++ ": is a directory") ]})
     | None => Returned (c_JSON 404 {[ "error" := AString "not found" ]})
     end, tick (os_ReadFile p) w).
Proof.
  intros name p. unfold main_read. fold name.
  rewrite safeFilename_SafeFilename.
  destruct (String.eqb name "" || negb (SafeFilename name)); [reflexivity|].
  calls. rewrite exec_Call. fold p. cbn [handle].
  by destruct (w_files w !! p) as [[]|].
Qed.

Lemma exec_main_write dataDir File Content w :
  let p := filepath.Join dataDir File in
  exec (main_write dataDir (Ok (File, Content))) w =
  if String.eqb File "" then
    (Returned (c_JSON 400 {[ "error" := AString "provide JSON {file, content}" ]}), w)
  else if negb (SafeFilename File) then
    (Returned (c_JSON 400 {[ "error" := AString "invalid file name" ]}), w)
  else if w_readonly w then
    (Returned (c_JSON 500
                 {[ "error" := AString ("open " ++ p ++ ": read-only file system") ]}),
     tick (os_WriteFile p Content) w)
  else
    match w_files w !! p with
    | Some Directory =>
        (Returned (c_JSON 500
                     {[ "error" := AString ("open " ++ p ++ ": is a directory") ]}),
         tick (os_WriteFile p Content) w)
    | _ =>
        (Returned (c_JSON 200 {[ "written" := AString p;
                                 "bytes" := AInt (len Content) ]}),
         with_files (<[p := RegularFile Content]> (w_files w))
                    (tick (os_WriteFile p Content) w))
    end.
Proof.
  intros p. unfold main_write. rewrite safeFilename_SafeFilename.
  destruct (String.eqb File ""); [reflexivity|].
  destruct (negb (SafeFilename File)); [reflexivity|].
  calls. rewrite exec_Call. fold p. cbn [handle].
  destruct (w_readonly w); [reflexivity|].
  by destruct (w_files w !! p) as [[]|].
Qed.

Lemma writes_only_main_read dataDir c :
  writes_only (λ _, False) (main_read dataDir c).
Proof.
  unfold main_read. destruct (_ || _); [done|].
  apply writes_only_bind; [by apply writes_only_do|].
  intros [b|err]; [done|]. by destruct (IsNotExist err).
Qed.

Lemma writes_only_DataReadText Config c :
  writes_only (λ _, False) (DataReadText Config c).
Proof.
  unfold DataReadText. destruct (String.eqb _ ""); [done|].
  apply writes_only_bind; [apply writes_only_ReadFile|].
  by intros [detail [err|]].
Qed.

Lemma writes_only_main_write dataDir bound :
  writes_only (λ q, ∃ File Content,
                      bound = Ok (File, Content) ∧ q = filepath.Join dataDir File)
              (main_write dataDir bound).
Proof.
  unfold main_write. destruct bound as [[File Content]|err]; [|done].
  destruct (String.eqb File ""); [done|].
  destruct (negb (safeFilename File)); [done|].
  apply writes_only_bind; [apply writes_only_do; by eexists _, _|].
  by intros [werr|].
Qed.

(** X10: the two read endpoints change no file, whatever the request
    and whatever the file system holds. *)
Theorem read_endpoints_change_no_file Config dataDir c w :
  w_files (exec (DataReadText Config c) w).2 = w_files w ∧
  w_files (exec (main_read dataDir c) w).2 = w_files w.
Proof.
  split; apply map_eq; intros q.
  - apply (exec_writes_only (λ _, False)); [apply writes_only_DataReadText|tauto].
  - apply (exec_writes_only (λ _, False)); [apply writes_only_main_read|tauto].
Qed.

(** X11: the write handler of main.go changes at most the path of the
    file it is asked for: every other path is afterwards as it was, and
    a body that does not bind changes nothing. *)
Theorem main_write_leaves_other_paths dataDir File Content w q :
  q ≠ filepath.Join dataDir File →
  w_files (exec (main_write dataDir (Ok (File, Content))) w).2 !! q
  = w_files w !! q ∧
  ∀ err, w_files (exec (main_write dataDir (Err err)) w).2 = w_files w.
Proof.
  intros Hq. split; [|done].
  eapply exec_writes_only; [apply writes_only_main_write|].
  intros (F & C & [= <- _] & ->). done.
Qed.

Lemma main_write_leaves_other_paths_witness :
  let w := sample_world in
  let q := "/data/.first-mount.sh" in
  w_files (exec (main_write "/data" (Ok ("notes.txt", "bye"))) w).2 !! q
  = w_files w !! q ∧
  ∀ err, w_files (exec (main_write "/data" (Err err)) w).2 = w_files w.
Proof.
  intros w q.
  apply (main_write_leaves_other_paths "/data" "notes.txt" "bye" sample_world
           "/data/.first-mount.sh").
  discriminate.
Defined.

(** X12: in main.go, after the write handler answered 200 for a file
    and a content, the read handler for that file answers 200 with
    exactly that content. *)
Theorem main_write_then_read dataDir File Content c w obj w1 :
  exec (main_write dataDir (Ok (File, Content))) w
  = (Returned (c_JSON 200 obj), w1) →
  Query c "file" = File →
  (exec (main_read dataDir c) w1).1
  = Returned (c_Data 200 "text/plain; charset=utf-8" Content).
Proof.
  intros Hwrite Hq. rewrite exec_main_write in Hwrite.
  rewrite exec_main_read, Hq.
  destruct (String.eqb File ""); [discriminate|].
  destruct (SafeFilename File); [|discriminate]. cbn [negb orb] in *.
  destruct (w_readonly w); [discriminate|].
  destruct (w_files w !! filepath.Join dataDir File) as [[]|];
    try discriminate; injection Hwrite as _ <-; cbn [fst with_files w_files];
    by rewrite lookup_insert_eq.
Qed.

Lemma main_write_then_read_witness :
  let c := mkContext ctx_Background {[ "file" := ".first-mount.sh" ]} in
  (exec (main_read "/data" c)
        (exec (main_write "/data" (Ok (".first-mount.sh", "exit 1"))) sample_world).2).1
  = Returned (c_Data 200 "text/plain; charset=utf-8" "exit 1").
Proof.
  intros c.
  eapply (main_write_then_read "/data" ".first-mount.sh" "exit 1" c sample_world);
    reflexivity.
Defined.

(** X13: the self-test handler of main.go runs as the probe
    [FilesystemSelfTest] does (the same calls, the same world after) and
    answers 200 with the probe's detail, or 500 with the detail and the
    error's message under "error". *)
Theorem main_selftest_as_probe ctx dataDir w :
  exec (main_selftest dataDir) w
  = match exec (FilesystemSelfTest ctx dataDir) w with
    | (Returned r, w') => (Returned (selftest_response r), w')
    | (Panicked msg, w') => (Panicked msg, w')
    end.
Proof.
  unfold main_selftest, FilesystemSelfTest. calls.
  rewrite !exec_Call. cbv zeta.
  destruct (handle (os_WriteFile _ _) _) as [[werr|] w1]; cbn [fst snd];
    [reflexivity|].
  rewrite !exec_Call.
  destruct (handle (os_Open _) _) as [[f|oerr] w2]; cbn [fst snd];
    [|reflexivity].
  rewrite !exec_Call.
  destruct (handle (io_ReadAll _) _) as [[got|rerr] w3]; cbn [fst snd].
  - rewrite !exec_Call.
    by destruct (handle (os_Remove _) _) as [delErr w4].
  - reflexivity.
Qed.

(** X14: [simulateCheck] always answers 200 with status "ok", the name
    "legacy", a latency that is not negative and the detail
    [{message: successMsg}], after two readings of the clock. *)
Theorem simulateCheck_ok c successMsg w :
  let w1 := (handle time_Now w).2 in
  exec (simulateCheck c successMsg) w
  = (Returned
       (c_JSON 200
          {[ "status" := AString "ok";
             "name" := AString "legacy";
             "latencyMs" := AInt (Milliseconds
                                    (Time_Sub (handle time_Now w1).1
                                              (handle time_Now w).1));
             "detail" := AMap {[ "message" := AString successMsg ]} ]}),
     (handle time_Now w1).2) ∧
  0 ≤ Milliseconds (Time_Sub (handle time_Now w1).1 (handle time_Now w).1).
Proof.
  intros w1. split.
  - unfold simulateCheck. change runCheck with run. by rewrite exec_run.
  - apply Milliseconds_Sub_nonneg. subst w1. cbn. lia.
Qed.

(** ** The URLs of the services endpoint *)

Lemma TrimRight_idempotent s :
  strings.TrimRight (strings.TrimRight s) = strings.TrimRight s.
Proof.
  induction s as [|c s IH]; [reflexivity|].
  cbn [strings.TrimRight].
  destruct (strings.is_space_rune (String c (strings.TrimRight s))) eqn:Hc;
    [reflexivity|].
  cbn [strings.TrimRight]. by rewrite IH, Hc.
Qed.

(** [TrimRight] leaves a prefix. *)
Lemma TrimRight_prefix s : ∃ q, s = strings.TrimRight s ++ q.
Proof.
  induction s as [|c s [q IH]]; [by exists ""|].
  cbn [strings.TrimRight].
  destruct (strings.is_space_rune (String c (strings.TrimRight s)));
    [by eexists|].
  exists q.
  change (String c (strings.TrimRight s) ++ q)
    with (String c (strings.TrimRight s ++ q)).
  by rewrite <- IH.
Qed.

(** [TrimLeft] stops where no space rune starts, and only there. *)
Lemma TrimLeft_stuck s :
  strings.starts_with_space s = false → strings.TrimLeft s = s.
Proof.
  destruct s as [|c [|d [|e s3]]];
    cbn [strings.starts_with_space strings.TrimLeft]; [done|..].
  - rewrite orb_false_r. by intros ->.
  - rewrite orb_false_r. by intros [-> ->]%orb_false_elim.
  - by intros [-> [-> ->]%orb_false_elim]%orb_false_elim.
Qed.

Lemma TrimLeft_no_space_first s :
  strings.starts_with_space (strings.TrimLeft s) = false.
Proof.
  assert (∀ n s, (String.length s ≤ n)%nat →
                 strings.starts_with_space (strings.TrimLeft s) = false) as H.
  { clear s. induction n as [|n IH]; intros [|c s1] Hn;
      cbn [String.length] in Hn; [done|lia|done|].
    cbn [strings.TrimLeft].
    destruct (strings.is_space_rune (String c "")) eqn:H1; [apply IH; lia|].
    destruct s1 as [|d s2];
      [cbn [strings.starts_with_space]; by rewrite H1|].
    cbn [String.length] in Hn.
    destruct (strings.is_space_rune (String c (String d ""))) eqn:H2;
      [apply IH; lia|].
    destruct s2 as [|e s3];
      [cbn [strings.starts_with_space]; by rewrite H1, H2|].
    cbn [String.length] in Hn.
    destruct (strings.is_space_rune (String c (String d (String e ""))))
      eqn:H3; [apply IH; lia|].
    cbn [strings.starts_with_space]. by rewrite H1, H2, H3. }
  by apply (H (String.length s)).
Qed.

Lemma TrimRight_no_space_first s :
  strings.starts_with_space s = false →
  strings.starts_with_space (strings.TrimRight s) = false.
Proof.
  intros H. destruct (TrimRight_prefix s) as [q Hq].
  destruct (strings.TrimRight s) as [|c [|d [|e t]]]; [done|..];
    rewrite Hq in H; cbn [String.append strings.starts_with_space] in H |- *.
  - apply orb_false_elim in H as [-> _]. done.
  - apply orb_false_elim in H as [-> [-> _]%orb_false_elim]. done.
  - exact H.
Qed.

Lemma TrimSpace_idempotent s :
  strings.TrimSpace (strings.TrimSpace s) = strings.TrimSpace s.
Proof.
  unfold strings.TrimSpace.
  rewrite (TrimLeft_stuck (strings.TrimRight (strings.TrimLeft s)))
    by apply TrimRight_no_space_first, TrimLeft_no_space_first.
  apply TrimRight_idempotent.
Qed.

Lemma service_urls_loop_filter pieces :
  ∀ urls,
    service_urls_loop pieces urls
    = (urls ++ filter (λ s, s ≠ "") (strings.TrimSpace <$> pieces))%list.
Proof.
  induction pieces as [|u pieces IH]; intros urls; cbn [service_urls_loop fmap list_fmap].
  - by rewrite app_nil_r.
  - destruct (String.eqb_spec (strings.TrimSpace u) "") as [He|Hne]; cbn [negb].
    + rewrite IH, filter_cons_False; [done|]. by intros ?.
    + rewrite IH, filter_cons_True by done. by rewrite <- app_assoc.
Qed.

(** X15: the URLs the services endpoint probes are the pieces of the
    variable between commas, trimmed, without the blank ones and in
    their order, or the one default URL when none is left: the list is
    never empty and holds no empty and no untrimmed string. *)
Theorem service_urls_kept urlsEnv :
  let kept := filter (λ s, s ≠ "")
                     (strings.TrimSpace <$> strings_Split urlsEnv ","%char) in
  service_urls urlsEnv
  = match kept with
    | [] => ["https://api.github.com"]
    | _ => kept
    end ∧
  service_urls urlsEnv ≠ [] ∧
  Forall (λ u, u ≠ "" ∧ strings.TrimSpace u = u) (service_urls urlsEnv).
Proof.
  intros kept.
  assert (service_urls urlsEnv
          = match kept with [] => ["https://api.github.com"] | _ => kept end)
    as Heq.
  { unfold service_urls. rewrite service_urls_loop_filter. cbn [app].
    fold kept. by destruct kept. }
  split; [exact Heq|]. rewrite Heq.
  destruct kept as [|u us] eqn:Hk; split; try done.
  - by repeat constructor.
  - rewrite <- Hk. subst kept. apply Forall_forall. intros x Hx.
    apply list_elem_of_filter in Hx as [Hne Hx].
    apply list_elem_of_fmap in Hx as (piece & -> & _).
    split; [done|]. apply TrimSpace_idempotent.
Qed.

(** ** The SPA mount *)

Lemma trimRightByte_tail x c :
  ∀ s, trimRightByte x c ≠ s ++ String c "".
Proof.
  induction x as [|d r IH]; intros s; [by destruct s|].
  cbn [trimRightByte]. destruct (trimRightByte r c) as [|e t] eqn:Hr.
  - destruct (Ascii.eqb_spec d c) as [->|Hdc]; [by destruct s|].
    destruct s as [|? s]; [by intros [= ->]|]. intros [= _ H]. by destruct s.
  - destruct s as [|? s]; [done|]. intros [= _ H]. by apply (IH s).
Qed.

Lemma trimLeftByte_suffix y c : ∃ pre, y = pre ++ trimLeftByte y c.
Proof.
  induction y as [|d y [pre IH]]; [by exists ""|].
  cbn [trimLeftByte]. destruct (Ascii.eqb d c); [|by exists ""].
  exists (String d pre).
  change (String d pre ++ trimLeftByte y c)
    with (String d (pre ++ trimLeftByte y c)). by rewrite <- IH.
Qed.

Lemma trimLeftByte_head y c t : trimLeftByte y c ≠ String c t.
Proof.
  induction y as [|d y IH]; [done|]. cbn [trimLeftByte].
  destruct (Ascii.eqb_spec d c) as [->|Hdc]; [done|]. by intros [= ->].
Qed.

Lemma strings_Trim_trimmed x c :
  (∀ s, strings_Trim x c ≠ String c s) ∧
  (∀ s, strings_Trim x c ≠ s ++ String c "").
Proof.
  unfold strings_Trim. split; intros s; [apply trimLeftByte_head|].
  destruct (trimLeftByte_suffix (trimRightByte x c) c) as [pre Hpre].
  intros Heq. rewrite Heq, <- append_assoc in Hpre.
  by apply trimRightByte_tail in Hpre.
Qed.

(** X16: the base path of the monitoring SPA is ["/"] followed by a
    string that neither starts nor ends with a slash (["monitoring"]
    when no base path is given). *)
Theorem monitoring_base_normal opts :
  ∃ t, monitoring_base opts = "/" ++ t ∧
       (∀ s, t ≠ "/" ++ s) ∧ (∀ s, t ≠ s ++ "/") ∧
       (BasePath opts = "" → t = "monitoring").
Proof.
  eexists. split; [reflexivity|].
  split; [apply strings_Trim_trimmed|].
  split; [apply strings_Trim_trimmed|].
  intros Hb. by rewrite Hb.
Qed.

(** ** The event log tail *)

Lemma string_take_drop n s : string_take n s ++ string_drop n s = s.
Proof.
  revert s. induction n as [|n IH]; intros [|c s]; try reflexivity.
  cbn [string_take string_drop].
  change (String c (string_take n s) ++ string_drop n s)
    with (String c (string_take n s ++ string_drop n s)).
  by rewrite IH.
Qed.

Lemma string_drop_drop n k s :
  string_drop n (string_drop k s) = string_drop (k + n) s.
Proof.
  revert s. induction k as [|k IH]; intros s; [by destruct s|].
  destruct s as [|c s]; [by destruct n|]. apply IH.
Qed.

Lemma string_drop_all n s : (String.length s ≤ n)%nat → string_drop n s = "".
Proof.
  revert s. induction n as [|n IH]; intros [|c s] Hn; try reflexivity.
  - cbn in Hn. lia.
  - apply IH. cbn in Hn. lia.
Qed.

Lemma length_string_drop n s :
  String.length (string_drop n s) = (String.length s - n)%nat.
Proof.
  revert s. induction n as [|n IH]; intros [|c s]; try reflexivity. apply IH.
Qed.

Lemma length_string_take n s :
  (n ≤ String.length s)%nat → String.length (string_take n s) = n.
Proof.
  revert s. induction n as [|n IH]; intros [|c s] Hn; try reflexivity.
  - cbn in Hn. lia.
  - cbn [string_take String.length]. rewrite IH; [done|]. cbn in Hn. lia.
Qed.

Lemma string_take_exact a b :
  string_take (String.length a) (a ++ b) = a.
Proof.
  induction a as [|c a IH]; [by destruct b|].
  change (String c a ++ b) with (String c (a ++ b)).
  cbn [String.length string_take]. by rewrite IH.
Qed.

(** On a file that does not change, the reading loop ends with the
    whole file in the buffer. *)
Lemma read_blocks_whole data maxLines rounds :
  0 < int_wrap (maxLines + 1) →
  ∀ offset buf,
    0 ≤ offset ≤ len data →
    buf = string_drop (Z.to_nat offset) data →
    (Z.to_nat offset ≤ rounds)%nat →
    read_blocks rounds (file_ReadAt data) maxLines offset buf = Ok data.
Proof.
  intros Hwrap. apply Z.ltb_lt in Hwrap.
  induction rounds as [|rounds IH]; intros offset buf Hoff Hbuf Hrounds.
  - cbn [read_blocks]. replace (Z.to_nat offset) with 0%nat in Hbuf by lia.
    subst buf. by destruct data.
  - cbn [read_blocks]. rewrite Hwrap, andb_true_r.
    destruct (0 <? offset) eqn:Hpos.
    + apply Z.ltb_lt in Hpos.
      set (readSize := if offset <? block then offset else block).
      assert (1 ≤ readSize ≤ offset) as Hsize.
      { subst readSize. unfold block. destruct (Z.ltb_spec offset (64 * 1024)); lia. }
      unfold file_ReadAt.
      set (got := string_take (Z.to_nat readSize)
                    (string_drop (Z.to_nat (offset - readSize)) data)).
      assert (String.length got = Z.to_nat readSize) as Hgot.
      { subst got. apply length_string_take. rewrite length_string_drop.
        unfold len in Hoff. lia. }
      assert ((len got <? readSize) = false) as ->.
      { apply Z.ltb_ge. unfold len. lia. }
      assert (chunk_after_read readSize got = got) as ->.
      { unfold chunk_after_read. rewrite <- Hgot. apply string_take_exact. }
      apply IH; [lia| |lia].
      subst buf got.
      rewrite <- (string_take_drop (Z.to_nat readSize)
                    (string_drop (Z.to_nat (offset - readSize)) data)) at 2.
      rewrite string_drop_drop. do 2 f_equal. lia.
    + apply Z.ltb_ge in Hpos. cbn [andb].
      replace (Z.to_nat offset) with 0%nat in Hbuf by lia.
      subst buf. by destruct data.
Qed.

Lemma last_lines_bound maxLines lines :
  0 < maxLines →
  match last_lines maxLines lines with
  | nil_slice => lines = []
  | slice_of kept =>
      kept ≠ [] ∧ Z.of_nat (length kept) ≤ maxLines ∧ kept `suffix_of` lines
  end.
Proof.
  intros Hmax. unfold last_lines.
  destruct (Z.ltb_spec maxLines (Z.of_nat (length lines))) as [Hlt|Hge].
  - split; [|split].
    + intros Hnil. apply (f_equal length) in Hnil.
      rewrite length_drop in Hnil. cbn in Hnil. lia.
    + rewrite length_drop. lia.
    + apply suffix_drop.
  - destruct lines as [|l lines]; [done|]. by repeat split.
Qed.

(** X18: whenever [EventLogTail] returns, the detail holds the path
    asked for, it holds "lines" exactly when the error is nil, and the
    lines are at most [maxLines] (at most 100 when [maxLines] is not
    positive). *)
Theorem EventLogTail_result ctx logPath maxLines os d err :
  EventLogTail ctx logPath maxLines os = Returned (d, err) →
  log_path d = logPath ∧
  (log_lines d = None ↔ err ≠ None) ∧
  ∀ lines, log_lines d = Some (slice_of lines) →
           Z.of_nat (length lines) ≤ (if maxLines <=? 0 then 100 else maxLines).
Proof.
  unfold EventLogTail.
  set (limit := if maxLines <=? 0 then 100 else maxLines).
  assert (0 < limit) as Hlimit.
  { subst limit. destruct (Z.leb_spec maxLines 0); lia. }
  destruct os as [oerr|[size|] ReadAt]; [| |done].
  - destruct (IsNotExist oerr); intros [= <- <-]; cbn.
    + repeat split; try done. intros lines [= <-]. cbn. lia.
    + by repeat split.
  - destruct (read_blocks _ _ _ _ _) as [buf|rerr]; intros [= <- <-]; cbn.
    + repeat split; try done. intros lines [= Hl].
      pose proof (last_lines_bound limit (scan_lines buf "") Hlimit) as Hb.
      rewrite Hl in Hb. lia.
    + by repeat split.
Qed.

Lemma EventLogTail_result_witness :
  let data := "a" ++ String line_feed ("b" ++ String line_feed "c") in
  let d := mkLogDetail "/var/log/app.log" (Some (slice_of ["b"; "c"])) in
  log_path d = "/var/log/app.log" ∧
  (log_lines d = None ↔ @None error ≠ None) ∧
  ∀ lines, log_lines d = Some (slice_of lines) →
           Z.of_nat (length lines) ≤ (if 2 <=? 0 then 100 else 2).
Proof.
  intros data d.
  apply (EventLogTail_result ctx_Background "/var/log/app.log" 2
           (open_ok (Some (len data)) (file_ReadAt data))).
  reflexivity.
Defined.

(** X19: on a file that does not change while it is read, and for
    [maxLines] below the largest [int], the reading loop loads the whole
    file, and the lines returned are the last [maxLines] (100 when
    [maxLines] is not positive) of the lines the scanner finds in it,
    with a nil error. *)
Theorem EventLogTail_unchanged_file ctx logPath maxLines data :
  maxLines < 2 ^ 63 - 1 →
  let limit := if maxLines <=? 0 then 100 else maxLines in
  EventLogTail ctx logPath maxLines (open_ok (Some (len data)) (file_ReadAt data))
  = Returned (mkLogDetail logPath
                (Some (last_lines limit (scan_lines data ""))), None).
Proof.
  intros Hmax limit. unfold EventLogTail. fold limit.
  rewrite (read_blocks_whole data limit); [done| | | |lia].
  - subst limit. unfold int_wrap.
    destruct (Z.leb_spec maxLines 0); [done|].
    rewrite Z.mod_small by lia. lia.
  - unfold len. lia.
  - unfold len. rewrite Nat2Z.id. symmetry. by apply string_drop_all.
Qed.

Lemma EventLogTail_unchanged_file_witness :
  let data := "a" ++ String line_feed ("b" ++ String line_feed "c") in
  EventLogTail ctx_Background "/var/log/app.log" 2
               (open_ok (Some (len data)) (file_ReadAt data))
  = Returned (mkLogDetail "/var/log/app.log" (Some (slice_of ["b"; "c"])), None).
Proof.
  intros data.
  apply (EventLogTail_unchanged_file ctx_Background "/var/log/app.log" 2 data).
  reflexivity.
Defined.

(** X20: with [maxLines] the largest [int], [maxLines+1] wraps around to
    a negative number, the reading loop never runs, and the answer is no
    lines at all (the nil slice) for every file that opens. *)
Theorem EventLogTail_largest_maxLines ctx logPath size ReadAt :
  EventLogTail ctx logPath (2 ^ 63 - 1) (open_ok (Some size) ReadAt)
  = Returned (mkLogDetail logPath (Some nil_slice), None).
Proof.
  unfold EventLogTail.
  assert (∀ rounds, read_blocks rounds ReadAt (2 ^ 63 - 1) size "" = Ok "") as ->.
  { intros [|rounds]; [reflexivity|]. cbn [read_blocks].
    replace (0 <? int_wrap (2 ^ 63 - 1 + 1)) with false by reflexivity.
    by rewrite andb_false_r. }
  reflexivity.
Qed.

(** ** The self-test and its file *)

(** X21: the self-test, as the probe and as the handler of main.go,
    leaves every path other than its own temporary file as it was. *)
Theorem selftest_leaves_other_files ctx dir w q :
  let temp := filepath.Join dir ("selftest-"
                                 ++ UTC_RFC3339Nano (handle time_Now w).1
                                 ++ ".txt") in
  q ≠ temp →
  w_files (exec (FilesystemSelfTest ctx dir) w).2 !! q = w_files w !! q ∧
  w_files (exec (main_selftest dir) w).2 !! q = w_files w !! q.
Proof.
  intros temp Hq. split.
  - unfold FilesystemSelfTest. calls. rewrite exec_Call. cbv zeta. fold temp.
    rewrite (exec_writes_only (λ q, q = temp)); [done| |done].
    split; [done|]. intros [werr|]; [done|].
    split; [done|]. intros [f|oerr]; [|done].
    split; [done|]. intros [got|rerr]; by repeat split.
  - unfold main_selftest. calls. rewrite exec_Call. cbv zeta. fold temp.
    rewrite (exec_writes_only (λ q, q = temp)); [done| |done].
    split; [done|]. intros [werr|]; [done|].
    split; [done|]. intros [f|oerr]; [|done].
    split; [done|]. intros [got|rerr]; by repeat split.
Qed.

Lemma selftest_leaves_other_files_witness :
  let q := "/data/notes.txt" in
  let w := sample_world in
  w_files (exec (FilesystemSelfTest ctx_Background "/data") w).2 !! q
    = w_files w !! q ∧
  w_files (exec (main_selftest "/data") w).2 !! q = w_files w !! q.
Proof.
  intros q w.
  apply (selftest_leaves_other_files ctx_Background "/data" sample_world
           "/data/notes.txt").
  discriminate.
Defined.

(** ** The root as a file name *)

(** X3: the name ["/"] passes the guard and joins to the cleaned
    directory itself, so [DeleteFile] with it calls [os.Remove] on the
    directory (for every protected map that does not hold ["/"]). *)
Theorem root_name_is_directory ctx dir protected w :
  dir ≠ "" → index protected "/" = false →
  let p := filepath.Clean dir in
  SafeFilename "/" = true ∧
  filepath.Join dir "/" = p ∧
  exec (DeleteFile ctx dir "/" protected) w
  = (match (handle (os_Remove p) w).1 with
     | Some err => Returned (None, Some err)
     | None => Returned (Some {[ "deleted" := AString p ]}, None)
     end, (handle (os_Remove p) w).2).
Proof.
  intros Hdir Hfree p. split; [reflexivity|]. split; [by apply Join_root|].
  rewrite exec_DeleteFile; [|reflexivity|by rewrite Hfree, andb_false_r].
  by rewrite Join_root.
Qed.

Lemma root_name_is_directory_witness :
  let p := "/data" in
  let w := with_files {[ "/data" := Directory ]} sample_world in
  SafeFilename "/" = true ∧
  filepath.Join "/data/" "/" = p ∧
  exec (DeleteFile ctx_Background "/data/" "/" (Some protectedFiles)) w
  = (Returned (Some {[ "deleted" := AString p ]}, None),
     with_files ∅ (tick (os_Remove p) w)).
Proof.
  intros p w.
  apply (root_name_is_directory ctx_Background "/data/" (Some protectedFiles) w);
    [discriminate|reflexivity].
Defined.

(** ** The services probe on well-formed URLs *)

(** X22: when [url.Parse] accepts every string of the list, [Services]
    returns a detail whose "services" map has an entry for exactly the
    URLs of the list, each one the report of that URL's answer ("ok" with
    the code on 2xx, "degraded" with the code on another status, "error"
    with the message when the request failed), and the error is nil
    exactly when every URL answered 2xx, and otherwise "one or more
    services failing". *)
Theorem Services_every_url_reported ctx urls w :
  Forall (λ u, w_url_Parse w u = None) urls →
  ∃ results err w',
    exec (Services ctx urls) w
    = (Returned (Some {[ "services" := AMap results ]}, err), w') ∧
    (∀ u, u ∈ urls → results !! u = Some (service_report (w_net w u))) ∧
    (∀ u, is_Some (results !! u) → u ∈ urls) ∧
    (err = None ↔ ∀ u, u ∈ urls → answered_2xx (w_net w u) = true) ∧
    (err = None ∨ err = Some (errorString "one or more services failing")).
Proof. apply Services_reports_every_url. Qed.

Lemma Services_every_url_reported_witness :
  let urls := ["http://ok.example"; "http://down.example"] in
  let w := sample_world in
  ∃ results err w',
    exec (Services ctx_Background urls) w
    = (Returned (Some {[ "services" := AMap results ]}, err), w') ∧
    (∀ u, u ∈ urls → results !! u = Some (service_report (w_net w u))) ∧
    (∀ u, is_Some (results !! u) → u ∈ urls) ∧
    (err = None ↔ ∀ u, u ∈ urls → answered_2xx (w_net w u) = true) ∧
    (err = None ∨ err = Some (errorString "one or more services failing")).
Proof.
  intros urls w.
  apply (Services_every_url_reported ctx_Background urls sample_world).
  by repeat constructor.
Defined.
